(** * Sensitivity grid: normalisation and heat-map rendering

    A shallow embedding of the two pieces of the Model workspace that turn
    the capital-structure sweep into a heat map:

    - the grid normalisation done inline in the heat-map tab (the block that
      builds [uniqueDebtToEbitda], [uniqueWacc] and [matrix]);
    - the effect body of [HeatmapChart] in
      [frontend/src/components/HeatmapChart.tsx].

    JavaScript numbers are IEEE 754 binary64 values, so they are embedded as
    Rocq's primitive [float]; every arithmetic operation below is the
    correctly rounded binary64 operation, and the results on concrete inputs
    are the ones a JavaScript engine computes. *)

From Stdlib Require Import Floats ZArith Lia.
From stdpp Require Import list strings sorting.

(** Decimal literals denote the nearest binary64 value, as in JavaScript. *)
Set Warnings "-inexact-float".

(** ** The JavaScript built-ins used by the two components *)

Module JS.

(** The type [number]. *)
Notation number := float (only parsing).

Local Open Scope float_scope.

(** [isNaN]: a number is NaN exactly when it differs from itself. *)
Definition isNaN (x : number) : bool := negb (x =? x).

(** [Number.isFinite]. *)
Definition isFinite (x : number) : bool :=
  match Prim2SF x with
  | S754_zero _ | S754_finite _ _ _ => true
  | S754_infinity _ | S754_nan => false
  end.

(** Strict equality [===] on numbers: IEEE equality, so [+0 === -0] and
    [NaN !== NaN]. *)
Definition strictEq (x y : number) : bool := x =? y.

(** SameValueZero, the key equality of [Set] and [Map]. *)
Definition sameValueZero (x y : number) : bool :=
  (isNaN x && isNaN y) || (x =? y).

(** [Set.prototype.add] on the insertion-ordered entry list: an entry that
    is already present is kept, [-0] is stored as [+0]. *)
Definition Set_add (entries : list number) (value : number) : list number :=
  if existsb (sameValueZero value) entries then entries
  else entries ++ [if value =? 0 then 0 else value].

(** [Array.from(new Set(values))]: the distinct values in first-occurrence
    order. *)
Definition Set_from (values : list number) : list number :=
  fold_left Set_add values [].

(** The comparison that [Array.prototype.sort] derives from a comparator:
    a NaN result counts as [+0]. *)
Definition SortCompare (comparefn : number -> number -> number)
    (x y : number) : number :=
  let v := comparefn x y in if isNaN v then 0 else v.

(** [Array.prototype.sort(comparefn)], as a stable insertion sort: [x] goes
    before the first element it compares below.  Whenever the comparator
    orders the elements consistently the sorted array is the same for every
    sorting algorithm; only then is the result fixed by the language. *)
Fixpoint sortInsert (comparefn : number -> number -> number)
    (x : number) (sorted : list number) : list number :=
  match sorted with
  | [] => [x]
  | y :: rest =>
      if SortCompare comparefn x y <? 0 then x :: y :: rest
      else y :: sortInsert comparefn x rest
  end.

Definition Array_sort (comparefn : number -> number -> number)
    (l : list number) : list number :=
  fold_left (fun sorted x => sortInsert comparefn x sorted) l [].

(** [Array.prototype.indexOf]: the first index holding a strictly equal
    element, [-1] when there is none. *)
Fixpoint indexOf_from (l : list number) (v : number) (i : Z) : Z :=
  match l with
  | [] => (-1)%Z
  | x :: rest => if strictEq x v then i else indexOf_from rest v (i + 1)%Z
  end.

Definition indexOf (l : list number) (v : number) : Z := indexOf_from l v 0.

(** [new Array(n).fill(v)]. *)
Definition Array_fill (n : nat) (v : number) : list number := replicate n v.

(** The integer [n] that [toFixed(1)] prints for the magnitude [m * 2^e]:
    the one closest to ten times the exact value, the larger one on a tie,
    that is [floor (10 * m * 2^e + 1/2)]. *)
Definition tenths (m : positive) (e : Z) : Z :=
  if (0 <=? e)%Z then 10 * Z.pos m * 2 ^ e
  else (20 * Z.pos m + 2 ^ (- e)) / 2 ^ (1 - e).

(** The number denoted by the decimal literal of [n / 10]: the binary64
    value nearest to it. *)
Definition ofTenths (n : Z) : number :=
  match n with
  | Z.pos p =>
      SF2Prim (SFdiv prec emax (S754_finite false p 0) (S754_finite false 10 0))
  | _ => 0
  end.

(** [+(x).toFixed(1)]: [x] printed with one fractional digit and read back.
    Non-finite values and magnitudes from [1e21] on are printed by
    [Number.prototype.toString], which reads back as the same number; both
    zeros print as ["0.0"]; otherwise the sign is printed apart from the
    digits of [tenths]. *)
Definition toFixed1 (x : number) : number :=
  match Prim2SF x with
  | S754_nan => nan
  | S754_infinity _ => x
  | S754_zero _ => 0
  | S754_finite s m e =>
      if 1e21 <=? abs x then x
      else let r := ofTenths (tenths m e) in if s then - r else r
  end.

(** [v || 0] for a value that is a number or [undefined]: [undefined],
    [NaN] and both zeros are falsy. *)
Definition or0 (v : option number) : number :=
  match v with
  | Some x => if isNaN x || (x =? 0) then 0 else x
  | None => 0
  end.

Definition isNegZero (x : number) : bool := (x =? 0) && (1 / x <? 0).

(** [Math.max] and [Math.min] of two numbers. *)
Definition Math_max (a b : number) : number :=
  if isNaN a || isNaN b then nan
  else if a <? b then b
  else if b <? a then a
  else if isNegZero a then b else a.

Definition Math_min (a b : number) : number :=
  if isNaN a || isNaN b then nan
  else if a <? b then a
  else if b <? a then b
  else if isNegZero a then a else b.

(** An array length or index as a number (exact below [2^53]). *)
Definition ofNat (n : nat) : number := of_uint63 (Uint63.of_Z (Z.of_nat n)).

End JS.

(** ** Grid normalisation (heat-map tab of the Model workspace) *)

Module Grid.
Import JS.
Local Open Scope float_scope.

(** One row of [capital_structure_grid]. *)
Record Sample := mkSample {
  debt_to_ebitda : number;
  wacc : number;
  equity_irr : number
}.

(** [+(d.wacc * 100).toFixed(1)]. *)
Definition waccKey (d : Sample) : number := toFixed1 (wacc d * 100).

Definition uniqueDebtToEbitda (gridData : list Sample) : list number :=
  Array_sort (fun a b => a - b) (Set_from (debt_to_ebitda <$> gridData)).

Definition uniqueWacc (gridData : list Sample) : list number :=
  Array_sort (fun a b => b - a) (Set_from (waccKey <$> gridData)).

(** [uniqueWacc.map(() => new Array(uniqueDebtToEbitda.length).fill(0))]:
    every row is an array of its own. *)
Definition zeroMatrix (xKeys yKeys : list number) : list (list number) :=
  (fun _ => Array_fill (length xKeys) 0) <$> yKeys.

(** [matrix[yIndex][xIndex] = v].  In JavaScript a write past the end of a
    row would extend the row, and a write into a missing row would throw.
    Neither can happen here: both indices come from [indexOf] on the axis the
    matrix was allocated from, so they are in range ([Arrays.indexOf_range]
    and [GridFacts.fold_fillRow_shape] below); out of range the list
    functions used here leave the matrix as it is. *)
Definition setCell (matrix : list (list number)) (yIndex xIndex : Z)
    (v : number) : list (list number) :=
  alter (fun row => <[Z.to_nat xIndex := v]> row) (Z.to_nat yIndex) matrix.

(** The body of [gridData.forEach]. *)
Definition fillRow (xKeys yKeys : list number) (matrix : list (list number))
    (row : Sample) : list (list number) :=
  let xIndex := indexOf xKeys (debt_to_ebitda row) in
  let yIndex := indexOf yKeys (waccKey row) in
  if negb (xIndex =? -1)%Z && negb (yIndex =? -1)%Z
  then setCell matrix yIndex xIndex (equity_irr row * 100)
  else matrix.

Definition buildMatrix (gridData : list Sample) : list (list number) :=
  let xKeys := uniqueDebtToEbitda gridData in
  let yKeys := uniqueWacc gridData in
  fold_left (fillRow xKeys yKeys) gridData (zeroMatrix xKeys yKeys).

(** The three values handed to the chart, before label formatting. *)
Definition normalize (gridData : list Sample)
    : list number * list number * list (list number) :=
  (uniqueDebtToEbitda gridData, uniqueWacc gridData, buildMatrix gridData).

(** Reading [matrix[y][x]]. *)
Definition cell (matrix : list (list number)) (y x : nat) : option number :=
  row ← matrix !! y; row !! x.

(** A matrix of [ny] rows of [nx] cells. *)
Definition hasShape (ny nx : nat) (matrix : list (list number)) : Prop :=
  length matrix = ny /\ Forall (fun row => length row = nx) matrix.

(** The two samples of scenario A. *)
Definition scenarioA : list Sample :=
  [mkSample 3 0.08 0.22; mkSample 5 0.10 0.18].


Definition finiteKeys (d : Sample) : Prop :=
  isFinite (debt_to_ebitda d) = true /\ isFinite (wacc d) = true.

(** Two samples with the same key pair: strictly equal leverage and strictly
    equal rounded percentage. *)
Definition samePair (a b : Sample) : bool :=
  strictEq (debt_to_ebitda a) (debt_to_ebitda b)
  && strictEq (waccKey a) (waccKey b).

End Grid.


(** ** The d3 helpers the chart calls *)

Module D3.
Import JS.
Local Open Scope float_scope.

(** [min(values)] and [max(values)] of d3-array: values that do not
    compare with themselves are skipped, an empty result is [undefined]. *)
Definition min (values : list number) : option number :=
  fold_left (fun min value =>
    match min with
    | None => if value <=? value then Some value else None
    | Some m => if value <? m then Some value else min
    end) values None.

Definition max (values : list number) : option number :=
  fold_left (fun max value =>
    match max with
    | None => if value <=? value then Some value else None
    | Some m => if m <? value then Some value else max
    end) values None.

(** A sequential scale after [.domain([x0, x1])]. *)
Record sequential := mkSequential {
  t0 : number;
  t1 : number;
  k10 : number
}.

Definition scaleSequential (x0 x1 : number) : sequential :=
  {| t0 := x0; t1 := x1; k10 := if x0 =? x1 then 0 else 1 / (x1 - x0) |}.

(** The colour [interpolateRdYlBu(t)], kept symbolic. *)
Inductive color := RdYlBu (t : number).

(** Calling the scale: NaN is unknown ([undefined]). *)
Definition applySequential (s : sequential) (x : number) : option color :=
  if isNaN x then None
  else Some (RdYlBu (if k10 s =? 0 then 0.5 else (x - t0 s) * k10 s)).

(** The ordinal domain: duplicates of an earlier value are dropped. *)
Definition internDomain (values : list string) : list string :=
  fold_left (fun domain v =>
    if bool_decide (v ∈ domain) then domain else domain ++ [v]) values [].

Fixpoint indexGet (domain : list string) (d : string) : option nat :=
  match domain with
  | [] => None
  | v :: rest => if bool_decide (v = d) then Some 0%nat else S <$> indexGet rest d
  end.

(** [rescale] of the band scale, for [n] domain values, the range
    [[r0, r1]] and [padding(padding)], which sets the outer padding and caps
    the inner one at 1; [align] is 0.5 and [round] is off. *)
Definition bandStart (r0 r1 : number) : number := if r1 <? r0 then r1 else r0.

Definition bandStop (r0 r1 : number) : number := if r1 <? r0 then r0 else r1.

Definition bandStep (n r0 r1 padding : number) : number :=
  let paddingOuter := padding in
  let paddingInner := Math_min 1 paddingOuter in
  (bandStop r0 r1 - bandStart r0 r1)
  / Math_max 1 (n - paddingInner + paddingOuter * 2).

(** The slot offsets [start + step * i], before a reversed range turns them
    around. *)
Definition bandValues (count : nat) (r0 r1 padding : number) : list number :=
  let n := ofNat count in
  let paddingInner := Math_min 1 padding in
  let align := 0.5 in
  let start := bandStart r0 r1 in
  let stop := bandStop r0 r1 in
  let step := bandStep n r0 r1 padding in
  let start := start + (stop - start - step * (n - paddingInner)) * align in
  (fun i => start + step * ofNat i) <$> seq 0 count.

(** A band scale after [.domain(labels).range([r0, r1]).padding(padding)]. *)
Record band := mkBand {
  band_domain : list string;
  band_range : list number;
  band_bandwidth : number
}.

Definition scaleBand (labels : list string) (r0 r1 padding : number) : band :=
  let domain := internDomain labels in
  let n := ofNat (length domain) in
  let values := bandValues (length domain) r0 r1 padding in
  {| band_domain := domain;
     band_range := if r1 <? r0 then reverse values else values;
     band_bandwidth := bandStep n r0 r1 padding * (1 - Math_min 1 padding) |}.

(** Calling the band scale on [labels[i]], which is [undefined] past the
    end of the array: a value outside the domain is unknown. *)
Definition applyBand (s : band) (d : option string) : option number :=
  d ← d; i ← indexGet (band_domain s) d;
  band_range s !! (i mod length (band_range s))%nat.

End D3.

(** ** The effect of [HeatmapChart] *)

Module Heatmap.
Import JS.
Local Open Scope float_scope.

Record HeatmapProps := mkProps {
  data : list (list number);
  xLabels : list string;
  yLabels : list string;
  title : option string;
  width : number;
  height : number
}.

(** The props with the defaults [width = 600] and [height = 400]. *)
Definition defaultProps (data : list (list number)) (xLabels yLabels : list string)
    (title : option string) : HeatmapProps :=
  mkProps data xLabels yLabels title 600 400.

(** What the effect appends.  The two template literals keep their holes:
    a cell label is [`${v.toFixed(1)}%`], a tooltip is
    [`${yLabel}, ${xLabel}: ${v.toFixed(1)}%`]. *)
Inductive node :=
| CellRect (x y w h : number) (fill : option D3.color)
    (yLabel xLabel : option string) (value : number)
| CellText (x y : number) (fill : string) (value : number)
| AxisBottom (ticks : list string)
| AxisLeft (ticks : list string)
| TitleText (x y : number) (text : string)
| CaptionX (tx ty : number) (text : string)
| CaptionY (x y : number) (text : string)
| G (translate : option (number * number)) (children : list node).

(** The [<svg>] element behind [svgRef]. *)
Record svgElement := mkSvg {
  attr_width : option number;
  attr_height : option number;
  childNodes : list node
}.

(** The matrix of scenario A drawn with one x label missing. *)
Definition oneLabelShort : HeatmapProps :=
  defaultProps [[0; 18]; [22; 0]] ["3.0x"] ["10.0%"; "8.0%"] None.

Definition margin_top : number := 40.
Definition margin_right : number := 40.
Definition margin_bottom : number := 60.
Definition margin_left : number := 60.

Definition innerWidth (p : HeatmapProps) : number :=
  width p - margin_left - margin_right.
Definition innerHeight (p : HeatmapProps) : number :=
  height p - margin_top - margin_bottom.

(** [[min(data.flat()) || 0, max(data.flat()) || 0]]. *)
Definition colorDomain (data : list (list number)) : number * number :=
  (or0 (D3.min (concat data)), or0 (D3.max (concat data))).

Definition colorScale (p : HeatmapProps) : D3.sequential :=
  D3.scaleSequential (colorDomain (data p)).1 (colorDomain (data p)).2.

Definition xScale (p : HeatmapProps) : D3.band :=
  D3.scaleBand (xLabels p) 0 (innerWidth p) 0.05.

Definition yScale (p : HeatmapProps) : D3.band :=
  D3.scaleBand (yLabels p) (innerHeight p) 0 0.05.

(** [xScale(xLabels[j]) || 0] and [yScale(yLabels[i]) || 0]. *)
Definition cellX (p : HeatmapProps) (j : nat) : number :=
  or0 (D3.applyBand (xScale p) (xLabels p !! j)).
Definition cellY (p : HeatmapProps) (i : nat) : number :=
  or0 (D3.applyBand (yScale p) (yLabels p !! i)).

(** [data[i][j] > 0 ? "#000" : "#fff"]. *)
Definition textFill (v : number) : string :=
  if 0 <? v then "#000" else "#fff".

Definition cellRect (p : HeatmapProps) (i j : nat) (v : number) : node :=
  CellRect (cellX p j) (cellY p i)
    (D3.band_bandwidth (xScale p)) (D3.band_bandwidth (yScale p))
    (D3.applySequential (colorScale p) v)
    (yLabels p !! i) (xLabels p !! j) v.

Definition cellText (p : HeatmapProps) (i j : nat) (v : number) : node :=
  CellText (cellX p j + D3.band_bandwidth (xScale p) / 2)
    (cellY p i + D3.band_bandwidth (yScale p) / 2)
    (textFill v) v.

(** The two nested loops over [data], row by row. *)
Definition forCells (p : HeatmapProps) (draw : nat -> nat -> number -> node)
    : list node :=
  concat (imap (fun i row => imap (fun j v => draw i j v) row) (data p)).

(** [if (title)]: a missing or empty title draws nothing. *)
Definition titleNodes (p : HeatmapProps) : list node :=
  match title p with
  | Some t => if bool_decide (t = EmptyString) then []
              else [TitleText (width p / 2) (margin_top / 2) t]
  | None => []
  end.

(** The effect body, from the state of the element behind [svgRef] to its
    state afterwards; [None] is an unmounted element. *)
Definition render (p : HeatmapProps) (current : option svgElement)
    : option svgElement :=
  match current with
  | None => None
  | Some svg =>
      if bool_decide (data p = []) then Some svg
      else
        (* select(svgRef.current).selectAll("*").remove() *)
        let cleared := mkSvg (attr_width svg) (attr_height svg) [] in
        let sized := mkSvg (Some (width p)) (Some (height p)) (childNodes cleared) in
        let g :=
          G (Some (margin_left, margin_top))
            (forCells p (cellRect p) ++ forCells p (cellText p)
             ++ [G (Some (0, innerHeight p)) [AxisBottom (D3.band_domain (xScale p))];
                 G None [AxisLeft (D3.band_domain (yScale p))]]) in
        Some (mkSvg (attr_width sized) (attr_height sized)
                (childNodes sized ++ [g] ++ titleNodes p
                 ++ [CaptionX (width p / 2) (height p - 10) "Terminal Growth Rate (%)";
                     CaptionY (- height p / 2) 15 "WACC (%)"]))
  end.

End Heatmap.


(** ** Auxiliary notions for the binary64 order *)

Module Order.
Local Open Scope Z_scope.


(** A rank whose lexicographic order is the IEEE order: the class
    (infinities outermost, zeros in the middle), then the exponent, then
    the significand, the last two negated below zero. *)
Definition rank (x : spec_float) : Z * Z * Z :=
  match x with
  | S754_zero _ | S754_nan => (0, 0, 0)
  | S754_infinity s => (if s then -2 else 2, 0, 0)
  | S754_finite s m e => if s then (-1, - e, Z.neg m) else (1, e, Z.pos m)
  end.

Definition lexcmp (a b : Z * Z * Z) : comparison :=
  match a.1.1 ?= b.1.1 with
  | Eq => match a.1.2 ?= b.1.2 with
          | Eq => a.2 ?= b.2
          | c => c
          end
  | c => c
  end.

Definition notNaN (x : spec_float) : bool :=
  match x with S754_nan => false | _ => true end.

(** The rank of a number. *)
Definition rk (x : float) : Z * Z * Z := rank (Prim2SF x).

(** Pairwise different under [===], and strictly increasing. *)
Definition Distinct (l : list float) : Prop :=
  StronglySorted (fun a b => PrimFloat.eqb a b = false) l.

Definition Ascending (l : list float) : Prop :=
  StronglySorted (fun a b => PrimFloat.ltb a b = true) l.


End Order.

(** ** The heat-map tab of the Model page *)

Module HeatmapTab.
Import JS Grid Heatmap.
Local Open Scope float_scope.

(** What the tab shows: the chart, or one of its two placeholder
    paragraphs. *)
Inductive view :=
| Chart (props : HeatmapProps)
| GridNotAvailable
| NoModelYet.

(** [modelResults], as far as the tab reads it: [capital_structure_grid] is
    [None] when it is not an array. *)
Record ModelResults := mkResults {
  capital_structure_grid : option (list Sample)
}.

(** A string is truthy when it is present and not empty. *)
Definition truthy (s : option string) : bool :=
  match s with
  | Some t => negb (bool_decide (t = EmptyString))
  | None => false
  end.

Section Labels.
(** [v.toFixed(1)] as text, the built-in formatter. *)
Variable toFixed1Text : number -> string.

(** [`${v.toFixed(1)}x`] and [`${v.toFixed(1)}%`]. *)
Definition xLabelOf (v : number) : string := String.append (toFixed1Text v) "x".
Definition yLabelOf (v : number) : string := String.append (toFixed1Text v) "%".

(** The props of [<HeatmapChart data=... xLabels=... yLabels=... title=... />];
    width and height are left to their defaults. *)
Definition chartProps (gridData : list Sample) : HeatmapProps :=
  defaultProps (buildMatrix gridData)
    (xLabelOf <$> uniqueDebtToEbitda gridData)
    (yLabelOf <$> uniqueWacc gridData)
    (Some "Equity IRR (%) across Capital Structure").

(** [modelId && modelResults ? (Array.isArray(grid) && grid.length > 0 ? chart
    : placeholder) : placeholder]. *)
Definition heatmapTab (modelId : option string) (modelResults : option ModelResults)
    : view :=
  if truthy modelId then
    match modelResults with
    | Some results =>
        match capital_structure_grid results with
        | Some (d :: rest) => Chart (chartProps (d :: rest))
        | _ => GridNotAvailable
        end
    | None => NoModelYet
    end
  else NoModelYet.
End Labels.

End HeatmapTab.

(** ** State and handlers of the Model page *)

Module ModelPage.
Import JS.
Local Open Scope float_scope.

(** The four [useState] cells of [Model]. *)
Record state := mkState {
  activeTab : string;
  exportProgress : number;
  exportType : option string;
  modelId : option string
}.

Definition initialState : state := mkState "assumptions" 0 None None.

(** Truthiness of a string that may be [null]: present and not empty. *)
Definition JS_truthy (s : option string) : bool :=
  match s with
  | Some t => negb (bool_decide (t = EmptyString))
  | None => false
  end.

Inductive exportKind := Excel | PPT.

Definition kindName (k : exportKind) : string :=
  match k with Excel => "Excel" | PPT => "PPT" end.

(** What a handler does besides setting state. *)
Inductive effect :=
| Alert (message : string)
| ApiGet (endpoint : string)
| ApiPost (endpoint : string)
| Download (fileName : string)
| InvalidateModelResults.

(** The first branch of [handleExport]: no model yet. *)
Definition refuseExport (s : state) : state * list effect :=
  (mkState "assumptions" (exportProgress s) (exportType s) (modelId s),
   [Alert "Please create a model first by submitting the assumptions form."]).

(** [handleExport(type)]; [requestFails] says whether [api.get] rejects, and
    [symbol] is the route parameter. *)
Definition handleExport (symbol : option string) (type : exportKind)
    (requestFails : bool) (s : state) : state * list effect :=
  match modelId s with
  | Some id =>
      if bool_decide (id = EmptyString) then refuseExport s
      else
        let endpoint :=
          match type with
          | Excel => String.append "/api/export/" (String.append id "/excel")
          | PPT => String.append "/api/export/" (String.append id "/ppt")
          end in
        if requestFails then
          (mkState (activeTab s) (exportProgress s) None (modelId s),
           [ApiGet endpoint])
        else
          let base := if JS_truthy symbol then default "model" symbol else "model" in
          (s, [ApiGet endpoint;
               Download (String.append base
                           (match type with Excel => ".xlsx" | PPT => ".pptx" end))])
  | None => refuseExport s
  end.

(** [onSubmit(data)]: [response] is [None] when [api.post] rejects, and
    otherwise holds [response.data.model_id]. *)
Definition onSubmit (response : option (option string)) (s : state)
    : state * list effect :=
  match response with
  | Some model_id =>
      (mkState "results" (exportProgress s) (exportType s) model_id,
       [ApiPost "/api/models"; InvalidateModelResults])
  | None => (s, [ApiPost "/api/models"])
  end.

(** What can happen to the page. *)
Inductive event :=
| TabChange (tab : string)
| Submit (response : option (option string))
| Export (symbol : option string) (type : exportKind) (requestFails : bool).

Definition step (s : state) (e : event) : state :=
  match e with
  | TabChange tab => mkState tab (exportProgress s) (exportType s) (modelId s)
  | Submit response => (onSubmit response s).1
  | Export symbol type requestFails => (handleExport symbol type requestFails s).1
  end.

Definition run (events : list event) : state := fold_left step events initialState.

(** [exportType && exportProgress > 0 && exportProgress < 100]. *)
Definition progressShown (s : state) : bool :=
  JS_truthy (exportType s) && (0 <? exportProgress s) && (exportProgress s <? 100).

(** The [disabled] attribute of an export button:
    [!!exportType && exportType !== type
     || (exportType === type && exportProgress > 0 && exportProgress < 100)]. *)
Definition exportDisabled (type : exportKind) (s : state) : bool :=
  (JS_truthy (exportType s)
   && negb (bool_decide (exportType s = Some (kindName type))))
  || (bool_decide (exportType s = Some (kindName type))
      && (0 <? exportProgress s) && (exportProgress s <? 100)).

(** [disabled={!modelId}] of the Results, Heatmap and Export tab triggers. *)
Definition tabsDisabled (s : state) : bool := negb (JS_truthy (modelId s)).

End ModelPage.

(** ** The store of recent tickers *)

Module RecentTickers.

Record TickerItem := mkTicker {
  ticker : string;
  companyName : string
}.

(** [addRecentTicker]: the ticker moves to the front and the list is cut to
    ten entries. *)
Definition addRecentTicker (t : TickerItem) (recentTickers : list TickerItem)
    : list TickerItem :=
  let filteredTickers := filter (fun item => ticker item <> ticker t) recentTickers in
  take 10 (t :: filteredTickers).

Definition clearRecentTickers (recentTickers : list TickerItem) : list TickerItem := [].

Inductive action :=
| Add (t : TickerItem)
| Clear.

Definition apply (recentTickers : list TickerItem) (a : action) : list TickerItem :=
  match a with
  | Add t => addRecentTicker t recentTickers
  | Clear => clearRecentTickers recentTickers
  end.

End RecentTickers.

(** ** The common shape of [min] and [max] *)

Module Extremes.
Import JS.
Local Open Scope float_scope.

(** One step of the loop of [min] ([before] is [<]) and of [max] ([before]
    is [>]): the first value that compares with itself is taken, and a later
    value replaces the best one when it comes before it. *)
Definition pick (before : number -> number -> bool) (best : option number)
    (value : number) : option number :=
  match best with
  | None => if value <=? value then Some value else None
  | Some m => if before value m then Some value else best
  end.

End Extremes.

(** ** Kinds of drawn nodes *)

Module Nodes.
Import Heatmap.
Local Open Scope float_scope.

(** A 2 x 2 matrix drawn with its labels and no title. *)
Definition twoByTwo : HeatmapProps :=
  defaultProps [[0; 18]; [22; 0]] ["3.0x"; "5.0x"] ["10.0%"; "8.0%"] None.

(** Scenario D: a matrix that holds the values -5, 0 and 12, the 0 twice. *)
Definition scenarioD : HeatmapProps :=
  defaultProps [[-5; 0]; [12; 0]] ["3.0x"; "5.0x"] ["10.0%"; "8.0%"] None.

Definition isCellRect (n : node) : bool :=
  match n with CellRect _ _ _ _ _ _ _ _ => true | _ => false end.

Definition isCellText (n : node) : bool :=
  match n with CellText _ _ _ _ => true | _ => false end.

End Nodes.

(** * Properties *)

(** ** The built-ins on known values *)

Module Checks.
Import JS.
Local Open Scope float_scope.

(** [toFixed(1)] rounds the exact binary value, half away from zero:
    [(0.25).toFixed(1)] is ["0.3"], yet [(0.35).toFixed(1)] is ["0.3"] and
    [(0.15).toFixed(1)] is ["0.1"], as their doubles lie below the tie. *)
Example toFixed1_values :
  toFixed1 <$> [0.25; 0.35; 0.05; 0.15; -0.04; -2.55; 99.95; 1e21; 123456789.98]
  = [0.3; 0.3; 0.1; 0.1; -0; -2.5; 100; 1e21; 123456790].
Proof. vm_compute. reflexivity. Qed.

Example toFixed1_special :
  toFixed1 <$> [nan; infinity; neg_infinity; -0; 5e-324]
  = [nan; infinity; neg_infinity; 0; 0].
Proof. vm_compute. reflexivity. Qed.

Example Set_from_values : Set_from [3; 5; 3; -0; 0; nan; 5; nan] = [3; 5; 0; nan].
Proof. vm_compute. reflexivity. Qed.

Example Array_sort_values :
  Array_sort (fun a b => a - b) [5; 3; infinity; 10; -1; neg_infinity]
  = [neg_infinity; -1; 3; 5; 10; infinity].
Proof. vm_compute. reflexivity. Qed.

Example indexOf_values :
  indexOf [3; 5; 5] 5 = 1%Z /\ indexOf [3; 5] 4 = (-1)%Z /\
  indexOf [nan; 0] nan = (-1)%Z /\ indexOf [0] (-0) = 0%Z.
Proof. vm_compute. auto. Qed.

Example d3_min_max_values :
  D3.min [nan; 2; -5; 12] = Some (-5) /\ D3.max [nan; 2; -5; 12] = Some 12 /\
  D3.min [] = None /\ or0 (D3.max [nan]) = 0.
Proof. vm_compute. auto. Qed.

(** Two bands over [[0, 500]] with padding 0.05: step 500 / 2.05. *)
Example scaleBand_values :
  D3.scaleBand ["a"; "b"; "a"] 0 500 0.05
  = D3.mkBand ["a"; "b"] [12.195121951219477; 256.09756097560978]
      231.70731707317074.
Proof. vm_compute. reflexivity. Qed.

End Checks.

(** ** Rounding and subtraction on binary64 data *)

Module Binary64.
Import Order.
Local Open Scope Z_scope.


Lemma shr_1_nonneg (r : shr_record) : 0 <= shr_m r -> 0 <= shr_m (shr_1 r).
Proof. destruct r as [[|[p|p|]|p] ? ?]; simpl; lia. Qed.


Lemma iter_shr_1_nonneg (n : positive) (r : shr_record) :
  0 <= shr_m r -> 0 <= shr_m (SpecFloat.iter_pos shr_1 n r).
Proof.
  revert r. induction n as [n IH|n IH|]; intros r Hr; simpl.
  - apply IH, IH, shr_1_nonneg, Hr.
  - apply IH, IH, Hr.
  - apply shr_1_nonneg, Hr.
Qed.


Lemma shr_m_of_loc (m : Z) (l : location) : shr_m (shr_record_of_loc m l) = m.
Proof. destruct l as [|[]]; reflexivity. Qed.

Lemma shr_fexp_nonneg (m e : Z) (l : location) :
  0 <= m -> 0 <= shr_m (fst (shr_fexp prec emax m e l)).
Proof.
  intros Hm. unfold shr_fexp, shr.
  destruct (fexp prec emax (Zdigits2 m + e) - e); simpl; rewrite ?shr_m_of_loc; try lia.
  apply iter_shr_1_nonneg. rewrite shr_m_of_loc. lia.
Qed.


Lemma round_nearest_even_ge (m : Z) (l : location) : m <= round_nearest_even m l.
Proof. destruct l as [|[]]; simpl; try lia. destruct (IntDef.Z.even m); lia. Qed.

(** Rounding a non-negative significand never yields NaN. *)
Lemma binary_round_aux_not_nan (s : bool) (m e : Z) (l : location) :
  0 <= m -> binary_round_aux prec emax s m e l <> S754_nan.
Proof.
  intros Hm. unfold binary_round_aux.
  destruct (shr_fexp prec emax m e l) as [r1 e1] eqn:H1.
  destruct (shr_fexp prec emax (round_nearest_even (shr_m r1) (loc_of_shr_record r1)) e1 loc_Exact)
    as [r2 e2] eqn:H2.
  pose proof (shr_fexp_nonneg m e l Hm) as P1. rewrite H1 in P1. simpl in P1.
  pose proof (round_nearest_even_ge (shr_m r1) (loc_of_shr_record r1)) as P.
  pose proof (shr_fexp_nonneg (round_nearest_even (shr_m r1) (loc_of_shr_record r1)) e1 loc_Exact ltac:(lia)) as P2.
  rewrite H2 in P2. simpl in P2.
  destruct (shr_m r2); try lia; try discriminate.
  destruct (e2 <=? emax - prec); discriminate.
Qed.







Lemma binary_round_not_nan (s : bool) (m : positive) (e : Z) :
  binary_round prec emax s m e <> S754_nan.
Proof.
  unfold binary_round.
  destruct (shl_align m e (fexp prec emax (Z.pos (digits2_pos m) + e))) as [mz ez].
  apply binary_round_aux_not_nan. lia.
Qed.

Lemma binary_normalize_not_nan (m e : Z) (z : bool) :
  binary_normalize prec emax m e z <> S754_nan.
Proof.
  destruct m; simpl; [discriminate| |]; apply binary_round_not_nan.
Qed.



End Binary64.

(** ** The order and equality of numbers *)

Module Numbers.
Import JS Order Binary64.

Section Lexicographic.
Local Open Scope Z_scope.

Lemma lexcmp_eq (a b : Z * Z * Z) : lexcmp a b = Eq <-> a = b.
Proof.
  destruct a as [[a1 a2] a3], b as [[b1 b2] b3]. unfold lexcmp. simpl.
  destruct (Z.compare_spec a1 b1); [|split; [discriminate|intros [=]; lia]..].
  destruct (Z.compare_spec a2 b2); [|split; [discriminate|intros [=]; lia]..].
  destruct (Z.compare_spec a3 b3); [|split; [discriminate|intros [=]; lia]..].
  subst. tauto.
Qed.

Lemma lexcmp_lt_spec (a b : Z * Z * Z) :
  lexcmp a b = Lt <->
  a.1.1 < b.1.1 \/ (a.1.1 = b.1.1 /\ (a.1.2 < b.1.2 \/ (a.1.2 = b.1.2 /\ a.2 < b.2))).
Proof.
  destruct a as [[a1 a2] a3], b as [[b1 b2] b3]. unfold lexcmp. simpl.
  destruct (Z.compare_spec a1 b1); [|split; [lia|intros _; reflexivity]
                                    |split; [discriminate|lia]].
  destruct (Z.compare_spec a2 b2); [|split; [lia|intros _; reflexivity]
                                    |split; [discriminate|lia]].
  destruct (Z.compare_spec a3 b3); [split; [discriminate|lia]
                                    |split; [lia|intros _; reflexivity]
                                    |split; [discriminate|lia]].
Qed.

Lemma lexcmp_antisym (a b : Z * Z * Z) : lexcmp b a = CompOpp (lexcmp a b).
Proof.
  destruct a as [[a1 a2] a3], b as [[b1 b2] b3]. unfold lexcmp. simpl.
  rewrite (Z.compare_antisym a1 b1), (Z.compare_antisym a2 b2),
    (Z.compare_antisym a3 b3).
  destruct (a1 ?= b1), (a2 ?= b2), (a3 ?= b3); reflexivity.
Qed.

Lemma lexcmp_lt_trans (a b c : Z * Z * Z) :
  lexcmp a b = Lt -> lexcmp b c = Lt -> lexcmp a c = Lt.
Proof. rewrite !lexcmp_lt_spec. lia. Qed.

Lemma SFcompare_rank (x y : spec_float) :
  notNaN x = true -> notNaN y = true ->
  SFcompare x y = Some (lexcmp (rank x) (rank y)).
Proof.
  destruct x as [sx|sx| |sx mx ex], y as [sy|sy| |sy my ey];
    try discriminate; intros _ _;
    try (destruct sx; reflexivity); try (destruct sy; reflexivity);
    try (destruct sx, sy; reflexivity).
  unfold SFcompare, rank, lexcmp.
  destruct sx, sy; try reflexivity; simpl.
  rewrite Z.compare_opp, (Z.compare_antisym ex ey).
  destruct (ex ?= ey); reflexivity.
Qed.

Lemma SFcompare_nan (x y : spec_float) :
  notNaN x && notNaN y = false -> SFcompare x y = None.
Proof. destruct x, y; simpl; congruence. Qed.
End Lexicographic.

Local Open Scope float_scope.

Lemma isNaN_spec (x : number) : isNaN x = negb (notNaN (Prim2SF x)).
Proof.
  unfold isNaN. rewrite FloatAxioms.eqb_spec. unfold SFeqb.
  destruct (notNaN (Prim2SF x)) eqn:H.
  - rewrite SFcompare_rank by assumption.
    replace (lexcmp _ _) with Eq by (symmetry; apply lexcmp_eq; reflexivity).
    reflexivity.
  - rewrite SFcompare_nan by (rewrite H; reflexivity). reflexivity.
Qed.

Lemma notNaN_of (x : number) : isNaN x = false -> notNaN (Prim2SF x) = true.
Proof. rewrite isNaN_spec. destruct (notNaN _); [reflexivity|discriminate]. Qed.

Lemma isNaN_of (x : number) : notNaN (Prim2SF x) = true -> isNaN x = false.
Proof. rewrite isNaN_spec. intros ->. reflexivity. Qed.

Lemma ltb_iff (x y : number) :
  (x <? y) = true <->
  isNaN x = false /\ isNaN y = false /\ lexcmp (rk x) (rk y) = Lt.
Proof.
  rewrite FloatAxioms.ltb_spec, !isNaN_spec. unfold SFltb, rk.
  destruct (notNaN (Prim2SF x)) eqn:Hx, (notNaN (Prim2SF y)) eqn:Hy;
    rewrite ?SFcompare_rank by assumption;
    rewrite ?SFcompare_nan by (rewrite Hx, Hy; reflexivity); simpl;
    try (split; [discriminate|intros (? & ? & ?); discriminate]).
  destruct (lexcmp _ _); split; try discriminate; try tauto;
    intros (_ & _ & ?); discriminate.
Qed.

Lemma eqb_iff (x y : number) :
  (x =? y) = true <-> isNaN x = false /\ isNaN y = false /\ rk x = rk y.
Proof.
  rewrite FloatAxioms.eqb_spec, !isNaN_spec. unfold SFeqb, rk.
  destruct (notNaN (Prim2SF x)) eqn:Hx, (notNaN (Prim2SF y)) eqn:Hy;
    rewrite ?SFcompare_rank by assumption;
    rewrite ?SFcompare_nan by (rewrite Hx, Hy; reflexivity); simpl;
    try (split; [discriminate|intros (? & ? & ?); discriminate]).
  rewrite <- lexcmp_eq.
  destruct (lexcmp _ _); split; try discriminate; try tauto;
    intros (_ & _ & ?); discriminate.
Qed.

Lemma eqb_refl (x : number) : isNaN x = false -> (x =? x) = true.
Proof. unfold isNaN. destruct (x =? x); [reflexivity|discriminate]. Qed.

Lemma eqb_sym (x y : number) : (x =? y) = (y =? x).
Proof.
  apply eq_true_iff_eq. rewrite !eqb_iff. intuition congruence.
Qed.

Lemma eqb_trans (x y z : number) :
  (x =? y) = true -> (y =? z) = true -> (x =? z) = true.
Proof. rewrite !eqb_iff. intuition congruence. Qed.

Lemma eqb_notNaN (x y : number) :
  (x =? y) = true -> isNaN x = false /\ isNaN y = false.
Proof. rewrite eqb_iff. tauto. Qed.

Lemma ltb_notNaN (x y : number) :
  (x <? y) = true -> isNaN x = false /\ isNaN y = false.
Proof. rewrite ltb_iff. tauto. Qed.


Lemma ltb_irrefl (x : number) : (x <? x) = false.
Proof.
  destruct (x <? x) eqn:H; [|reflexivity].
  apply ltb_iff in H as (_ & _ & H).
  assert (lexcmp (rk x) (rk x) = Eq) by (apply lexcmp_eq; reflexivity).
  congruence.
Qed.


Lemma ltb_eqb_l (x x' y : number) :
  (x =? x') = true -> (x <? y) = (x' <? y).
Proof.
  intros H. apply eqb_iff in H as (? & ? & E).
  apply eq_true_iff_eq. rewrite !ltb_iff, E. tauto.
Qed.

Lemma ltb_eqb_r (x y y' : number) :
  (y =? y') = true -> (x <? y) = (x <? y').
Proof.
  intros H. apply eqb_iff in H as (? & ? & E).
  apply eq_true_iff_eq. rewrite !ltb_iff, E. tauto.
Qed.

Lemma ltb_not_eqb (x y : number) : (x <? y) = true -> (x =? y) = false.
Proof.
  intros H. destruct (x =? y) eqn:E; [|reflexivity].
  rewrite (ltb_eqb_l x y y E), ltb_irrefl in H. discriminate.
Qed.

End Numbers.

(** ** Differences as sort comparators *)

Module Comparators.
Import JS Order Binary64 Numbers.
Local Open Scope float_scope.




End Comparators.

(** ** Sets, sorting and lookup of numbers *)

Module Arrays.
Import JS Order Numbers.
Local Open Scope float_scope.

Lemma sortInsert_perm (comparefn : number -> number -> number) (x : number)
    (l : list number) :
  sortInsert comparefn x l ≡ₚ x :: l.
Proof.
  induction l as [|y l IH]; simpl; [reflexivity|].
  destruct (SortCompare comparefn x y <? 0); [reflexivity|].
  rewrite IH. apply Permutation_swap.
Qed.

Lemma fold_sortInsert_perm (comparefn : number -> number -> number)
    (l sorted : list number) :
  fold_left (fun sorted x => sortInsert comparefn x sorted) l sorted ≡ₚ sorted ++ l.
Proof.
  revert sorted. induction l as [|x l IH]; intros sorted; simpl.
  - rewrite app_nil_r. reflexivity.
  - rewrite IH, sortInsert_perm. simpl. apply Permutation_middle.
Qed.

Lemma Array_sort_perm (comparefn : number -> number -> number) (l : list number) :
  Array_sort comparefn l ≡ₚ l.
Proof. unfold Array_sort. rewrite fold_sortInsert_perm. reflexivity. Qed.

Section Sorted.
(** A comparator that decides a strict order [lt] on numbers. *)
Variable comparefn : number -> number -> number.
Variable lt : number -> number -> bool.
Hypothesis before_lt : forall x y,
  isNaN x = false -> isNaN y = false ->
  (SortCompare comparefn x y <? 0) = lt x y.
Hypothesis lt_trans : forall x y z,
  lt x y = true -> lt y z = true -> lt x z = true.
Hypothesis lt_total : forall x y,
  isNaN x = false -> isNaN y = false ->
  lt x y = false -> (x =? y) = false -> lt y x = true.

Let sorted := StronglySorted (fun a b => lt a b = true).



End Sorted.


(** *** [Set] *)

Lemma existsb_false {A} (f : A -> bool) (l : list A) :
  existsb f l = false <-> Forall (fun x => f x = false) l.
Proof.
  induction l as [|x l IH]; simpl.
  - split; [constructor|reflexivity].
  - rewrite orb_false_iff, Forall_cons, IH. reflexivity.
Qed.

Lemma existsb_true {A} (f : A -> bool) (l : list A) :
  existsb f l = true -> exists x, x ∈ l /\ f x = true.
Proof.
  induction l as [|x l IH]; simpl; [discriminate|].
  intros [H|H]%orb_true_iff.
  - exists x. split; [left|assumption].
  - destruct (IH H) as (y & ? & ?). exists y. split; [right|]; assumption.
Qed.

Lemma stored_eqb (v : number) :
  isNaN v = false -> ((if v =? 0 then 0 else v) =? v) = true.
Proof.
  intros Hv. destruct (v =? 0) eqn:E.
  - rewrite eqb_sym. exact E.
  - apply eqb_refl, Hv.
Qed.

Lemma stored_isNaN (v : number) : isNaN (if v =? 0 then 0 else v) = isNaN v.
Proof.
  destruct (v =? 0) eqn:E; [|reflexivity].
  apply eqb_notNaN in E as [-> _]. reflexivity.
Qed.

Lemma stored_differs (v e : number) :
  (v =? e) = false -> (e =? (if v =? 0 then 0 else v)) = false.
Proof.
  intros H. destruct (v =? 0) eqn:E; [|rewrite eqb_sym; exact H].
  destruct (e =? 0) eqn:E'; [|reflexivity].
  rewrite (eqb_trans v 0 e) in H; [discriminate|assumption|].
  rewrite eqb_sym. assumption.
Qed.

Lemma sameValueZero_false (v e : number) :
  sameValueZero v e = false -> (v =? e) = false.
Proof. unfold sameValueZero. intros [_ H]%orb_false_iff. exact H. Qed.

Lemma Set_add_distinct (entries : list number) (v : number) :
  Distinct entries -> Distinct (Set_add entries v).
Proof.
  intros Hd. unfold Set_add.
  destruct (existsb (sameValueZero v) entries) eqn:E; [assumption|].
  apply existsb_false in E. apply StronglySorted_app.
  split; [|split; [assumption|repeat constructor]].
  intros e x He ->%list_elem_of_singleton.
  rewrite Forall_forall in E. apply stored_differs, sameValueZero_false, E, He.
Qed.


Lemma Set_add_keeps (entries : list number) (v e : number) :
  e ∈ entries -> e ∈ Set_add entries v.
Proof.
  intros He. unfold Set_add.
  destruct (existsb (sameValueZero v) entries); [assumption|].
  apply elem_of_app. left. assumption.
Qed.

Lemma Set_add_has (entries : list number) (v : number) :
  isNaN v = false -> exists e, e ∈ Set_add entries v /\ (e =? v) = true.
Proof.
  intros Hv. unfold Set_add.
  destruct (existsb (sameValueZero v) entries) eqn:E.
  - apply existsb_true in E as (e & He & H). exists e. split; [assumption|].
    unfold sameValueZero in H. rewrite Hv in H. simpl in H.
    rewrite eqb_sym. exact H.
  - eexists. split; [apply elem_of_app; right; left|]. apply stored_eqb, Hv.
Qed.

Lemma fold_Set_add_distinct (l entries : list number) :
  Distinct entries -> Distinct (fold_left Set_add l entries).
Proof.
  revert entries. induction l as [|v l IH]; intros entries Hd; simpl;
    [assumption|]. apply IH, Set_add_distinct, Hd.
Qed.


Lemma fold_Set_add_keeps (l entries : list number) (e : number) :
  e ∈ entries -> e ∈ fold_left Set_add l entries.
Proof.
  revert entries. induction l as [|v l IH]; intros entries He; simpl;
    [assumption|]. apply IH, Set_add_keeps, He.
Qed.

Lemma fold_Set_add_has (l entries : list number) (v : number) :
  v ∈ l -> isNaN v = false ->
  exists e, e ∈ fold_left Set_add l entries /\ (e =? v) = true.
Proof.
  revert entries. induction l as [|w l IH]; intros entries Hv Hn.
  - apply elem_of_nil in Hv as [].
  - apply elem_of_cons in Hv as [->|Hv]; simpl.
    + destruct (Set_add_has entries w Hn) as (e & He & Hew).
      exists e. split; [|assumption]. apply fold_Set_add_keeps, He.
    + apply IH; assumption.
Qed.

Lemma Set_from_distinct (l : list number) : Distinct (Set_from l).
Proof. apply fold_Set_add_distinct. constructor. Qed.


(** Every number of the input is in the set, up to [===]. *)
Lemma Set_from_has (l : list number) (v : number) :
  v ∈ l -> isNaN v = false -> exists e, e ∈ Set_from l /\ (e =? v) = true.
Proof. apply fold_Set_add_has. Qed.

(** *** [indexOf] *)

Lemma indexOf_from_spec (l : list number) (v : number) (k : Z) :
  (indexOf_from l v k = (-1)%Z /\ Forall (fun x => strictEq x v = false) l) \/
  (exists (i : nat) (x : number),
      l !! i = Some x /\ strictEq x v = true /\
      indexOf_from l v k = (k + Z.of_nat i)%Z).
Proof.
  revert k. induction l as [|x l IH]; intros k; simpl.
  - left. split; [reflexivity|constructor].
  - destruct (strictEq x v) eqn:E.
    + right. exists 0%nat, x. repeat split; [assumption|lia].
    + destruct (IH (k + 1)%Z) as [[H1 H2]|(i & y & H1 & H2 & H3)].
      * left. split; [assumption|constructor; assumption].
      * right. exists (S i), y. repeat split; [assumption..|lia].
Qed.

(** A successful [indexOf] points at an element strictly equal to the one
    searched, inside the array. *)
Lemma indexOf_lookup (l : list number) (v : number) :
  indexOf l v <> (-1)%Z ->
  (0 <= indexOf l v)%Z /\
  exists x, l !! Z.to_nat (indexOf l v) = Some x /\ (x =? v) = true.
Proof.
  unfold indexOf. intros H.
  destruct (indexOf_from_spec l v 0) as [[H1 _]|(i & x & H1 & H2 & H3)];
    [congruence|].
  rewrite H3. split; [lia|]. exists x.
  replace (Z.to_nat (0 + Z.of_nat i)) with i by lia. split; assumption.
Qed.

Lemma indexOf_range (l : list number) (v : number) :
  indexOf l v <> (-1)%Z -> (0 <= indexOf l v < Z.of_nat (length l))%Z.
Proof.
  intros H. destruct (indexOf_lookup l v H) as (H0 & x & Hx & _).
  apply lookup_lt_Some in Hx. lia.
Qed.

Lemma indexOf_found (l : list number) (v e : number) :
  e ∈ l -> (e =? v) = true -> indexOf l v <> (-1)%Z.
Proof.
  intros He Hev. unfold indexOf.
  destruct (indexOf_from_spec l v 0) as [[_ H]|(i & x & _ & _ & ->)]; [|lia].
  rewrite Forall_forall in H. specialize (H e He). unfold strictEq in H.
  congruence.
Qed.

End Arrays.

(** ** Percentages and their rounding are numbers *)

Module Rounding.
Import JS Order Binary64 Numbers.
Local Open Scope float_scope.

Lemma notNaN_iff (x : spec_float) : notNaN x = true <-> x <> S754_nan.
Proof. destruct x; simpl; split; congruence. Qed.

Lemma opp_isNaN (f : number) : isNaN (- f) = isNaN f.
Proof. rewrite !isNaN_spec, opp_spec. destruct (Prim2SF f); reflexivity. Qed.

Lemma of_uint63_notNaN (n : PrimInt63.int) : isNaN (of_uint63 n) = false.
Proof.
  apply isNaN_of. rewrite of_uint63_spec.
  apply notNaN_iff, binary_normalize_not_nan.
Qed.

Lemma ldexp_notNaN (f : number) (e : Z) :
  isNaN f = false -> isNaN (Z.ldexp f e) = false.
Proof.
  intros Hf. apply isNaN_of. unfold Z.ldexp. rewrite ldshiftexp_spec.
  apply notNaN_of in Hf. unfold SFldexp.
  destruct (Prim2SF f); try assumption.
  apply notNaN_iff, binary_round_not_nan.
Qed.

Lemma SF2Prim_notNaN (x : spec_float) :
  x <> S754_nan -> isNaN (SF2Prim x) = false.
Proof.
  destruct x as [[]|[]| |s m e]; intros H; try reflexivity; [congruence|].
  unfold SF2Prim.
  assert (isNaN (Z.ldexp (of_uint63 (Uint63Axioms.of_Z (Z.pos m))) e) = false)
    by apply ldexp_notNaN, of_uint63_notNaN.
  destruct s; [rewrite opp_isNaN|]; assumption.
Qed.

Lemma SFdiv_finite_not_nan (p q : positive) :
  SFdiv prec emax (S754_finite false p 0) (S754_finite false q 0) <> S754_nan.
Proof.
  unfold SFdiv.
  destruct (SFdiv_core_binary prec emax (Z.pos p) 0 (Z.pos q) 0)
    as [[mz ez] lz] eqn:E.
  apply binary_round_aux_not_nan.
  unfold SFdiv_core_binary in E.
  set (s := (0 - 0 - _)%Z) in E.
  set (m' := match s with 0%Z => _ | Z.pos _ => _ | Z.neg _ => _ end) in E.
  assert (Hm : (0 <= m')%Z).
  { subst m'. destruct s; [lia| |lia]. apply Z.shiftl_nonneg. lia. }
  pose proof (Z_div_mod m' (Z.pos q) ltac:(lia)) as H.
  change IntDef.Z.div_eucl with Z.div_eucl in E.
  destruct (Z.div_eucl m' (Z.pos q)) as [d r]. injection E as <- _ _.
  nia.
Qed.

Lemma ofTenths_notNaN (n : Z) : isNaN (ofTenths n) = false.
Proof.
  destruct n; try reflexivity. apply SF2Prim_notNaN, SFdiv_finite_not_nan.
Qed.

(** Rounding to one decimal keeps a number a number. *)
Lemma toFixed1_notNaN (x : number) :
  isNaN x = false -> isNaN (toFixed1 x) = false.
Proof.
  intros Hx. unfold toFixed1. pose proof (notNaN_of x Hx) as Hs.
  destruct (Prim2SF x) as [s|s| |s m e]; try assumption; try reflexivity;
    [discriminate|].
  destruct (1e21 <=? abs x); [assumption|].
  destruct s; [rewrite opp_isNaN|]; apply ofTenths_notNaN.
Qed.

(** The percentage of a number is a number. *)
Lemma percent_notNaN (x : number) : isNaN x = false -> isNaN (x * 100) = false.
Proof.
  intros Hx. apply isNaN_of. rewrite mul_spec. apply notNaN_of in Hx.
  replace (Prim2SF 100) with (S754_finite false 7036874417766400 (-46))
    by (vm_compute; reflexivity).
  unfold SF64mul, SFmul. destruct (Prim2SF x) as [s|s| |s m e]; try reflexivity;
    [discriminate|].
  apply notNaN_iff, binary_round_aux_not_nan. lia.
Qed.

Lemma isFinite_notNaN (x : number) : isFinite x = true -> isNaN x = false.
Proof.
  unfold isFinite. intros H. apply isNaN_of.
  destruct (Prim2SF x); try reflexivity; discriminate.
Qed.

End Rounding.

(** ** The normalised grid *)

Module GridFacts.
Import JS Grid Order Numbers Comparators Arrays Rounding.
Local Open Scope float_scope.

Lemma StronglySorted_lookup {A} (R : A -> A -> Prop) (l : list A) (i j : nat)
    (a b : A) :
  StronglySorted R l -> (i < j)%nat -> l !! i = Some a -> l !! j = Some b -> R a b.
Proof.
  intros Hs. revert i j. induction Hs as [|x l Hs IH Hx]; intros i j Hij Hi Hj.
  - rewrite lookup_nil in Hi. discriminate.
  - destruct j as [|j]; [lia|]. destruct i as [|i]; simpl in *.
    + injection Hi as <-. rewrite Forall_forall in Hx. apply Hx.
      eapply list_elem_of_lookup_2, Hj.
    + apply (IH i j); [lia|assumption..].
Qed.

Lemma waccKey_notNaN (d : Sample) :
  isNaN (wacc d) = false -> isNaN (waccKey d) = false.
Proof. intros H. apply toFixed1_notNaN, percent_notNaN, H. Qed.



(** A number that occurs in the input of an axis is found on the axis. *)
Lemma axis_resolves (comparefn : number -> number -> number) (l : list number)
    (v : number) :
  v ∈ l -> isNaN v = false -> indexOf (Array_sort comparefn (Set_from l)) v <> (-1)%Z.
Proof.
  intros Hv Hn. destruct (Set_from_has l v Hv Hn) as (e & He & Hev).
  apply indexOf_found with e; [|assumption].
  rewrite Array_sort_perm. assumption.
Qed.

(** *** Shape of the matrix *)

Lemma zeroMatrix_shape (xKeys yKeys : list number) :
  hasShape (length yKeys) (length xKeys) (zeroMatrix xKeys yKeys).
Proof.
  unfold hasShape, zeroMatrix. split.
  - apply length_fmap.
  - apply Forall_fmap, Forall_true. intros k. apply length_replicate.
Qed.

Lemma setCell_shape (ny nx : nat) (matrix : list (list number)) (y x : Z)
    (v : number) :
  hasShape ny nx matrix -> hasShape ny nx (setCell matrix y x v).
Proof.
  unfold hasShape, setCell. intros [H1 H2]. split.
  - rewrite length_alter. assumption.
  - apply Forall_alter; [assumption|]. intros row _ Hrow.
    rewrite length_insert. assumption.
Qed.

Lemma fillRow_shape (ny nx : nat) (xKeys yKeys : list number)
    (matrix : list (list number)) (row : Sample) :
  hasShape ny nx matrix -> hasShape ny nx (fillRow xKeys yKeys matrix row).
Proof.
  intros H. unfold fillRow.
  destruct (negb _ && negb _); [apply setCell_shape|]; assumption.
Qed.

Lemma fold_fillRow_shape (ny nx : nat) (xKeys yKeys : list number)
    (l : list Sample) (matrix : list (list number)) :
  hasShape ny nx matrix ->
  hasShape ny nx (fold_left (fillRow xKeys yKeys) l matrix).
Proof.
  revert matrix. induction l as [|d l IH]; intros matrix H; simpl;
    [assumption|]. apply IH, fillRow_shape, H.
Qed.

Lemma cell_in_shape (ny nx : nat) (matrix : list (list number)) (y x : nat) :
  hasShape ny nx matrix -> (y < ny)%nat -> (x < nx)%nat ->
  is_Some (cell matrix y x).
Proof.
  intros [H1 H2] Hy Hx. unfold cell.
  destruct (lookup_lt_is_Some_2 matrix y ltac:(lia)) as [row Hrow].
  rewrite Hrow. simpl. apply lookup_lt_is_Some_2.
  rewrite Forall_lookup in H2. rewrite (H2 y row Hrow). assumption.
Qed.

Lemma cell_zeroMatrix (xKeys yKeys : list number) (y x : nat) :
  (y < length yKeys)%nat -> (x < length xKeys)%nat ->
  cell (zeroMatrix xKeys yKeys) y x = Some 0.
Proof.
  intros Hy Hx. unfold cell, zeroMatrix. rewrite list_lookup_fmap.
  destruct (lookup_lt_is_Some_2 yKeys y Hy) as [k ->]. simpl.
  apply lookup_replicate_2, Hx.
Qed.

(** *** Writing cells *)

Lemma cell_setCell_ne (matrix : list (list number)) (yIndex xIndex : Z)
    (v : number) (y x : nat) :
  Z.to_nat yIndex <> y \/ Z.to_nat xIndex <> x ->
  cell (setCell matrix yIndex xIndex v) y x = cell matrix y x.
Proof.
  intros H. unfold cell, setCell.
  destruct (decide (Z.to_nat yIndex = y)) as [<-|Hy].
  - rewrite list_lookup_alter_eq.
    destruct (matrix !! Z.to_nat yIndex) as [row|]; [|reflexivity]. simpl.
    apply list_lookup_insert_ne. tauto.
  - rewrite list_lookup_alter_ne by assumption. reflexivity.
Qed.

Lemma cell_setCell_eq (matrix : list (list number)) (yIndex xIndex : Z)
    (v : number) :
  is_Some (cell matrix (Z.to_nat yIndex) (Z.to_nat xIndex)) ->
  cell (setCell matrix yIndex xIndex v) (Z.to_nat yIndex) (Z.to_nat xIndex) = Some v.
Proof.
  unfold cell, setCell. rewrite list_lookup_alter_eq.
  destruct (matrix !! Z.to_nat yIndex) as [row|]; simpl; [|intros [? [=]]].
  intros H. apply list_lookup_insert_eq, lookup_lt_is_Some, H.
Qed.

(** A cell that no sample of [l] addresses keeps its value. *)
Lemma fold_fillRow_untouched (xKeys yKeys : list number) (l : list Sample)
    (matrix : list (list number)) (y x : nat) :
  (forall d, d ∈ l ->
     ~ (indexOf xKeys (debt_to_ebitda d) = Z.of_nat x /\
        indexOf yKeys (waccKey d) = Z.of_nat y)) ->
  cell (fold_left (fillRow xKeys yKeys) l matrix) y x = cell matrix y x.
Proof.
  revert matrix. induction l as [|d l IH]; intros matrix H; simpl;
    [reflexivity|].
  rewrite IH by (intros d' Hd'; apply H; right; assumption).
  unfold fillRow.
  destruct (indexOf xKeys (debt_to_ebitda d) =? -1)%Z eqn:Ex; [reflexivity|].
  destruct (indexOf yKeys (waccKey d) =? -1)%Z eqn:Ey; [reflexivity|]. simpl.
  apply Z.eqb_neq in Ex, Ey.
  pose proof (indexOf_range _ _ Ex). pose proof (indexOf_range _ _ Ey).
  apply cell_setCell_ne.
  destruct (decide (Z.to_nat (indexOf yKeys (waccKey d)) = y)) as [Hy|]; [|tauto].
  destruct (decide (Z.to_nat (indexOf xKeys (debt_to_ebitda d)) = x)) as [Hx|];
    [|tauto].
  exfalso. apply (H d); [left|]. lia.
Qed.

(** Two samples that resolve to the same index have strictly equal keys. *)
Lemma indexOf_same (l : list number) (v w : number) :
  indexOf l v <> (-1)%Z -> indexOf l w = indexOf l v -> strictEq w v = true.
Proof.
  intros Hv E. assert (Hw : indexOf l w <> (-1)%Z) by congruence.
  destruct (indexOf_lookup l v Hv) as (_ & a & Ha & Hav).
  destruct (indexOf_lookup l w Hw) as (_ & b & Hb & Hbw).
  rewrite E in Hb. assert (a = b) by congruence. subst b.
  unfold strictEq. apply eqb_trans with a; [|assumption].
  rewrite eqb_sym. assumption.
Qed.

Lemma fillRow_resolved (xKeys yKeys : list number) (matrix : list (list number))
    (d : Sample) (y x : nat) :
  indexOf xKeys (debt_to_ebitda d) = Z.of_nat x ->
  indexOf yKeys (waccKey d) = Z.of_nat y ->
  fillRow xKeys yKeys matrix d
  = setCell matrix (Z.of_nat y) (Z.of_nat x) (equity_irr d * 100).
Proof.
  intros Hx Hy. unfold fillRow. rewrite Hx, Hy.
  replace (Z.of_nat x =? -1)%Z with false by lia.
  replace (Z.of_nat y =? -1)%Z with false by lia. reflexivity.
Qed.

(** The last sample of a key pair decides its cell. *)
Lemma fold_fillRow_last (xKeys yKeys : list number) (before after : list Sample)
    (d : Sample) (matrix : list (list number)) (y x : nat) :
  hasShape (length yKeys) (length xKeys) matrix ->
  indexOf xKeys (debt_to_ebitda d) = Z.of_nat x ->
  indexOf yKeys (waccKey d) = Z.of_nat y ->
  (forall d', d' ∈ after -> samePair d' d = false) ->
  cell (fold_left (fillRow xKeys yKeys) (before ++ d :: after) matrix) y x
  = Some (equity_irr d * 100).
Proof.
  intros Hshape Hx Hy Hlast. rewrite fold_left_app. simpl.
  rewrite fold_fillRow_untouched.
  - rewrite (fillRow_resolved xKeys yKeys _ d y x Hx Hy).
    pose proof (cell_setCell_eq (fold_left (fillRow xKeys yKeys) before matrix)
                  (Z.of_nat y) (Z.of_nat x) (equity_irr d * 100)) as C.
    rewrite !Nat2Z.id in C. apply C.
    assert (indexOf xKeys (debt_to_ebitda d) <> (-1)%Z) as Rx by lia.
    assert (indexOf yKeys (waccKey d) <> (-1)%Z) as Ry by lia.
    apply indexOf_range in Rx, Ry.
    apply cell_in_shape with (length yKeys) (length xKeys); [|lia..].
    apply fold_fillRow_shape, Hshape.
  - intros d' Hd' [Ex Ey]. specialize (Hlast d' Hd'). unfold samePair in Hlast.
    rewrite (indexOf_same xKeys (debt_to_ebitda d) (debt_to_ebitda d')) in Hlast
      by (rewrite ?Hx; lia || congruence).
    rewrite (indexOf_same yKeys (waccKey d) (waccKey d')) in Hlast
      by (rewrite ?Hy; lia || congruence).
    discriminate.
Qed.

End GridFacts.

(** ** Claims about the grid normalisation *)

Import JS Grid Order.
Local Open Scope float_scope.

(** C3 (scenario A): the samples (3, 0.08, 0.22) and (5, 0.10, 0.18)
    normalise to the x keys [3, 5], the y keys [10, 8] and the matrix
    [[0, 18], [22, 0]]. *)
Theorem C3_scenario_A :
  normalize [mkSample 3 0.08 0.22; mkSample 5 0.10 0.18]
  = ([3; 5], [10; 8], [[0; 18]; [22; 0]]).
Proof. vm_compute. reflexivity. Qed.

(** C4 (round trip): when no later sample has the same (leverage, rounded
    percentage) pair as the sample [d] at position [k], and the pair of [d]
    resolves to the axis indices [(x, y)], then [matrix[y][x]] is
    [d.equity_irr * 100]. *)
Theorem C4_round_trip (gridData : list Sample) (k : nat) (d : Sample) (y x : nat) :
  gridData !! k = Some d ->
  (forall k' d', (k < k')%nat -> gridData !! k' = Some d' -> samePair d' d = false) ->
  indexOf (uniqueDebtToEbitda gridData) (debt_to_ebitda d) = Z.of_nat x ->
  indexOf (uniqueWacc gridData) (waccKey d) = Z.of_nat y ->
  cell (buildMatrix gridData) y x = Some (equity_irr d * 100).
Proof.
  intros Hk Hlast Hx Hy. unfold buildMatrix.
  rewrite <- (take_drop_middle gridData k d Hk) at 3.
  apply GridFacts.fold_fillRow_last; try assumption.
  - apply GridFacts.zeroMatrix_shape.
  - intros d' [i Hi]%list_elem_of_lookup. rewrite lookup_drop in Hi.
    apply (Hlast (S k + i)%nat d'); [lia|assumption].
Qed.

Lemma C4_round_trip_witness :
  cell (buildMatrix [mkSample 3 0.08 0.22; mkSample 5 0.10 0.18;
                     mkSample 3 0.0801 0.25]) 1 0
  = Some (0.25 * 100).
Proof.
  apply (C4_round_trip _ 2 (mkSample 3 0.0801 0.25) 1 0).
  - reflexivity.
  - intros [|[|[|k']]] d' Hk Hd'; try lia. discriminate.
  - vm_compute. reflexivity.
  - vm_compute. reflexivity.
Defined.

(** C5: the matrix has [len(yKeys)] rows of [len(xKeys)] cells each, and a
    cell whose index pair no sample produces is [0]. *)
Theorem C5_matrix_dense (gridData : list Sample) :
  length (buildMatrix gridData) = length (uniqueWacc gridData) /\
  Forall (fun row => length row = length (uniqueDebtToEbitda gridData))
    (buildMatrix gridData) /\
  forall y x : nat,
    (y < length (uniqueWacc gridData))%nat ->
    (x < length (uniqueDebtToEbitda gridData))%nat ->
    (forall d, d ∈ gridData ->
       ~ (indexOf (uniqueDebtToEbitda gridData) (debt_to_ebitda d) = Z.of_nat x /\
          indexOf (uniqueWacc gridData) (waccKey d) = Z.of_nat y)) ->
    cell (buildMatrix gridData) y x = Some 0.
Proof.
  pose proof (GridFacts.fold_fillRow_shape _ _
    (uniqueDebtToEbitda gridData) (uniqueWacc gridData) gridData _
    (GridFacts.zeroMatrix_shape (uniqueDebtToEbitda gridData) (uniqueWacc gridData)))
    as [H1 H2].
  split; [exact H1|]. split; [exact H2|].
  intros y x Hy Hx Hfree. unfold buildMatrix.
  rewrite GridFacts.fold_fillRow_untouched by assumption.
  apply GridFacts.cell_zeroMatrix; assumption.
Qed.

Lemma C5_matrix_dense_witness :
  cell (buildMatrix [mkSample 3 0.08 0.22; mkSample 5 0.10 0.18]) 0 0 = Some 0.
Proof.
  apply (C5_matrix_dense [mkSample 3 0.08 0.22; mkSample 5 0.10 0.18]).
  - vm_compute. lia.
  - vm_compute. lia.
  - intros d Hd [Ex Ey].
    apply elem_of_cons in Hd as [->|Hd];
      [|apply elem_of_cons in Hd as [->|Hd]; [|apply elem_of_nil in Hd as []]].
    + vm_compute in Ey. discriminate.
    + vm_compute in Ex. discriminate.
Defined.

(** C9: when the key fields of every sample are finite, every sample
    resolves on both axes, so the write branch of the fill loop is always
    taken. *)
Theorem C9_no_sample_dropped (gridData : list Sample) :
  Forall finiteKeys gridData ->
  Forall (fun d =>
    (0 <= indexOf (uniqueDebtToEbitda gridData) (debt_to_ebitda d)
       < Z.of_nat (length (uniqueDebtToEbitda gridData)))%Z /\
    (0 <= indexOf (uniqueWacc gridData) (waccKey d)
       < Z.of_nat (length (uniqueWacc gridData)))%Z /\
    forall matrix,
      fillRow (uniqueDebtToEbitda gridData) (uniqueWacc gridData) matrix d
      = setCell matrix (indexOf (uniqueWacc gridData) (waccKey d))
          (indexOf (uniqueDebtToEbitda gridData) (debt_to_ebitda d))
          (equity_irr d * 100)) gridData.
Proof.
  intros H. apply Forall_forall. intros d Hd.
  rewrite Forall_forall in H. destruct (H d Hd) as [Fx Fy].
  apply Rounding.isFinite_notNaN in Fx, Fy.
  assert (Hx : indexOf (uniqueDebtToEbitda gridData) (debt_to_ebitda d) <> (-1)%Z).
  { apply GridFacts.axis_resolves; [|assumption].
    apply list_elem_of_fmap_2, Hd. }
  assert (Hy : indexOf (uniqueWacc gridData) (waccKey d) <> (-1)%Z).
  { apply GridFacts.axis_resolves; [|apply GridFacts.waccKey_notNaN, Fy].
    apply list_elem_of_fmap_2, Hd. }
  split; [apply Arrays.indexOf_range, Hx|].
  split; [apply Arrays.indexOf_range, Hy|].
  intros matrix. unfold fillRow.
  apply Z.eqb_neq in Hx, Hy. rewrite Hx, Hy. reflexivity.
Qed.

Lemma C9_no_sample_dropped_witness :
  Forall (fun d =>
    (0 <= indexOf (uniqueDebtToEbitda scenarioA) (debt_to_ebitda d)
       < Z.of_nat (length (uniqueDebtToEbitda scenarioA)))%Z /\
    (0 <= indexOf (uniqueWacc scenarioA) (waccKey d)
       < Z.of_nat (length (uniqueWacc scenarioA)))%Z /\
    forall matrix,
      fillRow (uniqueDebtToEbitda scenarioA) (uniqueWacc scenarioA) matrix d
      = setCell matrix (indexOf (uniqueWacc scenarioA) (waccKey d))
          (indexOf (uniqueDebtToEbitda scenarioA) (debt_to_ebitda d))
          (equity_irr d * 100)) scenarioA.
Proof.
  apply (C9_no_sample_dropped scenarioA). repeat constructor.
Defined.

(** C7 (scenario C): 0.0800001 and 0.0799999 both round to the key 8, so two
    samples of equal leverage with these rates share one y key and one cell,
    and the cell holds the value of the later sample. *)
Theorem C7_collision_last_write_wins (leverage r1 r2 : number) :
  isNaN leverage = false ->
  waccKey (mkSample leverage 0.0800001 r1) = 8 /\
  waccKey (mkSample leverage 0.0799999 r2) = 8 /\
  normalize [mkSample leverage 0.0800001 r1; mkSample leverage 0.0799999 r2]
  = ([if leverage =? 0 then 0 else leverage], [8], [[r2 * 100]]).
Proof.
  intros Hl.
  assert (K1 : waccKey (mkSample leverage 0.0800001 r1) = 8)
    by (vm_compute; reflexivity).
  assert (K2 : waccKey (mkSample leverage 0.0799999 r2) = 8)
    by (vm_compute; reflexivity).
  split; [exact K1|]. split; [exact K2|].
  pose proof (Arrays.stored_eqb leverage Hl) as Hs.
  set (stored := if leverage =? 0 then 0 else leverage) in *.
  assert (X : uniqueDebtToEbitda
                [mkSample leverage 0.0800001 r1; mkSample leverage 0.0799999 r2]
              = [stored]).
  { unfold uniqueDebtToEbitda, Set_from. simpl. unfold Set_add at 2. simpl.
    fold stored. unfold Set_add. simpl. unfold sameValueZero.
    rewrite (Numbers.eqb_sym leverage stored), Hs, orb_true_r. reflexivity. }
  assert (Y : uniqueWacc
                [mkSample leverage 0.0800001 r1; mkSample leverage 0.0799999 r2]
              = [8]).
  { unfold uniqueWacc. simpl. rewrite K1, K2. vm_compute. reflexivity. }
  unfold normalize, buildMatrix. rewrite X, Y. simpl.
  unfold fillRow, indexOf. simpl. unfold strictEq. rewrite K1, K2, Hs.
  replace (8 =? 8) with true by (vm_compute; reflexivity). reflexivity.
Qed.

Lemma C7_collision_last_write_wins_witness :
  waccKey (mkSample 3 0.0800001 0.22) = 8 /\
  waccKey (mkSample 3 0.0799999 0.18) = 8 /\
  normalize [mkSample 3 0.0800001 0.22; mkSample 3 0.0799999 0.18]
  = ([if 3 =? 0 then 0 else 3], [8], [[0.18 * 100]]).
Proof. apply (C7_collision_last_write_wins 3 0.22 0.18). reflexivity. Defined.

(** ** The band scale and the chart *)

Module ChartFacts.
Import JS Order Numbers D3 Heatmap.
Local Open Scope float_scope.

Lemma or0_eqb (a : number) : isNaN a = false -> (or0 (Some a) =? a) = true.
Proof.
  intros Ha. unfold or0. rewrite Ha. simpl.
  destruct (a =? 0) eqn:E; [rewrite eqb_sym; exact E|apply eqb_refl, Ha].
Qed.

Lemma or0_ltb (a b : number) :
  (a <? b) = true -> (or0 (Some a) <? or0 (Some b)) = true.
Proof.
  intros H. destruct (ltb_notNaN a b H) as [Ha Hb].
  rewrite (ltb_eqb_l _ a _ (or0_eqb a Ha)), (ltb_eqb_r _ _ b (or0_eqb b Hb)).
  exact H.
Qed.

Lemma fold_intern_NoDup (labels domain : list string) :
  NoDup (domain ++ labels) ->
  fold_left (fun domain v =>
    if bool_decide (v ∈ domain) then domain else domain ++ [v]) labels domain
  = domain ++ labels.
Proof.
  revert domain. induction labels as [|v labels IH]; intros domain H; simpl.
  - rewrite app_nil_r. reflexivity.
  - assert (v ∉ domain) as Hv.
    { apply NoDup_app in H as (_ & H & _). intros Hin. apply (H v Hin). left. }
    rewrite bool_decide_eq_false_2 by assumption.
    rewrite IH; rewrite <- app_assoc; [reflexivity|exact H].
Qed.

Lemma internDomain_NoDup (labels : list string) :
  NoDup labels -> internDomain labels = labels.
Proof. intros H. apply (fold_intern_NoDup labels []), H. Qed.

Lemma indexGet_NoDup (domain : list string) (i : nat) (d : string) :
  NoDup domain -> domain !! i = Some d -> indexGet domain d = Some i.
Proof.
  revert i. induction domain as [|v rest IH]; intros i Hn Hi; [discriminate|].
  apply NoDup_cons in Hn as [Hv Hn]. simpl.
  destruct i as [|i]; simpl in Hi.
  - injection Hi as ->. rewrite bool_decide_eq_true_2 by reflexivity. reflexivity.
  - rewrite bool_decide_eq_false_2.
    + rewrite (IH i Hn Hi). reflexivity.
    + intros ->. apply Hv. eapply list_elem_of_lookup_2, Hi.
Qed.

Lemma length_bandValues (count : nat) (r0 r1 padding : number) :
  length (bandValues count r0 r1 padding) = count.
Proof. unfold bandValues. rewrite length_fmap. apply length_seq. Qed.

(** With distinct labels and a reversed range, label [i] gets the slot
    [n - 1 - i]. *)
Lemma applyBand_reversed (labels : list string) (r0 r1 padding : number)
    (i : nat) (d : string) :
  NoDup labels -> (r1 <? r0) = true -> labels !! i = Some d ->
  applyBand (scaleBand labels r0 r1 padding) (Some d)
  = bandValues (length labels) r0 r1 padding !! (length labels - S i)%nat.
Proof.
  intros Hn Hr Hi. unfold applyBand, scaleBand. simpl.
  rewrite (internDomain_NoDup labels Hn), Hr, (indexGet_NoDup labels i d Hn Hi).
  simpl. rewrite length_reverse, length_bandValues.
  pose proof (lookup_lt_Some _ _ _ Hi) as Hlt.
  rewrite Nat.mod_small by assumption.
  rewrite reverse_lookup by (rewrite length_bandValues; assumption).
  rewrite length_bandValues. reflexivity.
Qed.

Lemma forCells_elem (p : HeatmapProps) (draw : nat -> nat -> number -> node)
    (i j : nat) (row : list number) (v : number) :
  data p !! i = Some row -> row !! j = Some v -> draw i j v ∈ forCells p draw.
Proof.
  intros Hi Hj. unfold forCells. apply list_elem_of_In, in_concat.
  exists (imap (fun j v => draw i j v) row). split; apply list_elem_of_In.
  - eapply list_elem_of_lookup_2. rewrite list_lookup_imap, Hi. reflexivity.
  - eapply list_elem_of_lookup_2. rewrite list_lookup_imap, Hj. reflexivity.
Qed.

Lemma permutation_of_three {A} (a b c : A) (l : list A) :
  l ≡ₚ [a; b; c] ->
  l = [a; b; c] \/ l = [a; c; b] \/ l = [b; a; c] \/
  l = [b; c; a] \/ l = [c; a; b] \/ l = [c; b; a].
Proof.
  intros H. symmetry in H.
  apply Permutation_cons_inv_l in H as (k1 & k2 & -> & H).
  apply Permutation_length_2_inv in H as [H|H];
    destruct k1 as [|x [|y [|z k1]]]; simplify_eq/=; tauto.
Qed.

End ChartFacts.

(** ** Claims about the chart *)

Import D3 Heatmap.

(** C1, refuted as stated: with the default size and the two y labels of
    scenario A, the first label is not above the second; it is below it. *)
Lemma C1_row0_is_not_on_top :
  (cellY (defaultProps [[0; 18]; [22; 0]] ["3.0x"; "5.0x"] ["10.0%"; "8.0%"] None) 0
   <? cellY (defaultProps [[0; 18]; [22; 0]] ["3.0x"; "5.0x"] ["10.0%"; "8.0%"] None) 1)
  = false /\
  (cellY (defaultProps [[0; 18]; [22; 0]] ["3.0x"; "5.0x"] ["10.0%"; "8.0%"] None) 1
   <? cellY (defaultProps [[0; 18]; [22; 0]] ["3.0x"; "5.0x"] ["10.0%"; "8.0%"] None) 0)
  = true.
Proof. split; vm_compute; reflexivity. Qed.

(** C1, amended: the y range is [[innerHeight, 0]], so with distinct y labels
    and a positive inner height the label [i] gets the slot [n - 1 - i]
    counted from the top, and row 0 the bottom slot; whenever the slot
    offsets increase with the slot, the y coordinate of the first label is
    strictly greater than the one of every later label. *)
Theorem C1_row0_at_bottom (p : HeatmapProps) (i : nat) :
  NoDup (yLabels p) ->
  (0 <? innerHeight p) = true ->
  (i < length (yLabels p))%nat ->
  applyBand (yScale p) (yLabels p !! i)
  = bandValues (length (yLabels p)) (innerHeight p) 0 0.05
      !! (length (yLabels p) - S i)%nat /\
  (Ascending (bandValues (length (yLabels p)) (innerHeight p) 0 0.05) ->
   (0 < i)%nat -> (cellY p i <? cellY p 0) = true).
Proof.
  intros Hn Hh Hlt.
  destruct (lookup_lt_is_Some_2 (yLabels p) i Hlt) as [di Hdi].
  destruct (lookup_lt_is_Some_2 (yLabels p) 0 ltac:(lia)) as [d0 Hd0].
  pose proof (ChartFacts.applyBand_reversed _ _ _ 0.05 i di Hn Hh Hdi) as Ei.
  pose proof (ChartFacts.applyBand_reversed _ _ _ 0.05 0 d0 Hn Hh Hd0) as E0.
  split; [rewrite Hdi; exact Ei|].
  intros Hs Hi. unfold cellY, yScale. rewrite Hdi, Hd0, Ei, E0.
  set (values := bandValues _ _ _ _) in *.
  pose proof (ChartFacts.length_bandValues (length (yLabels p)) (innerHeight p) 0 0.05)
    as Hlen. fold values in Hlen.
  destruct (lookup_lt_is_Some_2 values (length (yLabels p) - S i) ltac:(lia))
    as [a Ha].
  destruct (lookup_lt_is_Some_2 values (length (yLabels p) - 1) ltac:(lia))
    as [b Hb].
  rewrite Ha, Hb. apply ChartFacts.or0_ltb.
  apply (GridFacts.StronglySorted_lookup _ values
           (length (yLabels p) - S i) (length (yLabels p) - 1) a b Hs);
    [lia|assumption..].
Qed.

Lemma C1_row0_at_bottom_witness :
  (cellY (defaultProps [[0; 18]; [22; 0]] ["3.0x"; "5.0x"] ["10.0%"; "8.0%"] None) 1
   <? cellY (defaultProps [[0; 18]; [22; 0]] ["3.0x"; "5.0x"] ["10.0%"; "8.0%"] None) 0)
  = true.
Proof.
  refine (proj2 (C1_row0_at_bottom
           (defaultProps [[0; 18]; [22; 0]] ["3.0x"; "5.0x"] ["10.0%"; "8.0%"] None)
           1 _ _ _) _ _).
  - apply (bool_decide_unpack _). vm_compute. exact I.
  - vm_compute. reflexivity.
  - simpl. lia.
  - unfold Ascending. vm_compute. repeat constructor.
  - lia.
Defined.

(** C2, refuted as stated: with an empty matrix the effect returns before
    clearing, so stale content stays in the target and no title is drawn. *)
Lemma C2_empty_input_keeps_stale_content :
  render (defaultProps [] [] [] (Some "Equity IRR (%) across Capital Structure"))
    (Some (mkSvg (Some 600) (Some 400) [TitleText 300 20 "stale"]))
  = Some (mkSvg (Some 600) (Some 400) [TitleText 300 20 "stale"]).
Proof. reflexivity. Qed.

(** C2, amended: the effect always completes; with an empty matrix it leaves
    the target as it was (nothing is cleared, nothing is drawn), and with a
    non-empty matrix the result does not depend on the prior content, which
    is cleared first. *)
Theorem C2_empty_is_left_alone (p : HeatmapProps) (svg : svgElement) :
  is_Some (render p (Some svg)) /\
  render p (Some svg)
  = if bool_decide (data p = []) then Some svg
    else render p (Some (mkSvg None None [])).
Proof.
  unfold render. destruct (bool_decide (data p = [])); split; eauto.
Qed.

(** C10: a cell whose x or y label is missing is still drawn, rectangle and
    text, and the coordinate that has no label falls back to 0. *)
Theorem C10_missing_label_falls_back (p : HeatmapProps) (svg : svgElement)
    (i j : nat) (row : list number) (v : number) :
  data p !! i = Some row -> row !! j = Some v ->
  exists inner rest,
    render p (Some svg)
    = Some (mkSvg (Some (width p)) (Some (height p))
              (G (Some (margin_left, margin_top)) inner :: rest)) /\
    CellRect (cellX p j) (cellY p i)
      (band_bandwidth (xScale p)) (band_bandwidth (yScale p))
      (applySequential (colorScale p) v) (yLabels p !! i) (xLabels p !! j) v
      ∈ inner /\
    CellText (cellX p j + band_bandwidth (xScale p) / 2)
      (cellY p i + band_bandwidth (yScale p) / 2) (textFill v) v ∈ inner /\
    ((length (xLabels p) <= j)%nat -> cellX p j = 0) /\
    ((length (yLabels p) <= i)%nat -> cellY p i = 0).
Proof.
  intros Hi Hj. unfold render.
  rewrite bool_decide_eq_false_2 by (intros E; rewrite E in Hi; discriminate).
  eexists _, _. split; [reflexivity|].
  split; [|split; [|split]].
  - apply elem_of_app. left.
    exact (ChartFacts.forCells_elem p (cellRect p) i j row v Hi Hj).
  - apply elem_of_app. right. apply elem_of_app. left.
    exact (ChartFacts.forCells_elem p (cellText p) i j row v Hi Hj).
  - intros H. unfold cellX. rewrite (lookup_ge_None_2 _ _ H). reflexivity.
  - intros H. unfold cellY. rewrite (lookup_ge_None_2 _ _ H). reflexivity.
Qed.

Lemma C10_missing_label_falls_back_witness :
  exists inner rest,
    render oneLabelShort (Some (mkSvg None None []))
    = Some (mkSvg (Some (width oneLabelShort)) (Some (height oneLabelShort))
              (G (Some (margin_left, margin_top)) inner :: rest)) /\
    CellRect (cellX oneLabelShort 1) (cellY oneLabelShort 0)
      (band_bandwidth (xScale oneLabelShort)) (band_bandwidth (yScale oneLabelShort))
      (applySequential (colorScale oneLabelShort) 18)
      (yLabels oneLabelShort !! 0%nat) (xLabels oneLabelShort !! 1%nat) 18
      ∈ inner /\
    CellText (cellX oneLabelShort 1 + band_bandwidth (xScale oneLabelShort) / 2)
      (cellY oneLabelShort 0 + band_bandwidth (yScale oneLabelShort) / 2)
      (textFill 18) 18 ∈ inner /\
    ((length (xLabels oneLabelShort) <= 1)%nat -> cellX oneLabelShort 1 = 0) /\
    ((length (yLabels oneLabelShort) <= 0)%nat -> cellY oneLabelShort 0 = 0).
Proof.
  exact (C10_missing_label_falls_back oneLabelShort (mkSvg None None [])
           0 1 [0; 18] 18 eq_refl eq_refl).
Defined.

(** * Further properties *)

(** ** More on the normalised grid *)

Module GridMore.
Import JS Grid Order Numbers Arrays Rounding GridFacts.
Local Open Scope float_scope.

Lemma Distinct_perm (l k : list number) : l ≡ₚ k -> Distinct l -> Distinct k.
Proof.
  unfold Distinct. induction 1 as [|x l k Hp IH|x y l|l k m _ IH1 _ IH2]; intros H.
  - assumption.
  - apply StronglySorted_cons in H as [H1 H2]. apply StronglySorted_cons.
    split; [|apply IH, H2]. rewrite <- Hp. exact H1.
  - apply StronglySorted_cons in H as [H1 H2].
    apply StronglySorted_cons in H2 as [H2 H3].
    apply Forall_cons in H1 as [Hyx H1].
    repeat (apply StronglySorted_cons; split); try assumption.
    constructor; [|assumption]. rewrite eqb_sym. assumption.
  - auto.
Qed.

Lemma Distinct_lookup (l : list number) (i j : nat) (a b : number) :
  Distinct l -> i <> j -> l !! i = Some a -> l !! j = Some b -> (a =? b) = false.
Proof.
  intros H Hij Hi Hj. destruct (decide (i < j)%nat).
  - exact (StronglySorted_lookup _ l i j a b H ltac:(lia) Hi Hj).
  - rewrite eqb_sym.
    exact (StronglySorted_lookup _ l j i b a H ltac:(lia) Hj Hi).
Qed.

Lemma axis_distinct (comparefn : number -> number -> number) (l : list number) :
  Distinct (Array_sort comparefn (Set_from l)).
Proof.
  apply Distinct_perm with (Set_from l); [|apply Set_from_distinct].
  symmetry. apply Array_sort_perm.
Qed.

(** *** Where the keys come from *)

Lemma stored_same (v : number) : sameValueZero (if v =? 0 then 0 else v) v = true.
Proof.
  unfold sameValueZero. destruct (isNaN v) eqn:Hn.
  - replace (v =? 0) with false; [rewrite Hn; reflexivity|].
    symmetry. destruct (v =? 0) eqn:E; [|reflexivity].
    apply eqb_notNaN in E as [E _]. congruence.
  - rewrite (stored_eqb v Hn). apply orb_true_r.
Qed.

Lemma fold_Set_add_sound (l entries : list number) (e : number) :
  e ∈ fold_left Set_add l entries ->
  e ∈ entries \/ exists v, v ∈ l /\ sameValueZero e v = true.
Proof.
  revert entries. induction l as [|w l IH]; intros entries He; simpl in He;
    [left; assumption|].
  destruct (IH _ He) as [H|(v & Hv & H)].
  - unfold Set_add in H. destruct (existsb (sameValueZero w) entries);
      [left; assumption|].
    apply elem_of_app in H as [H|H]; [left; assumption|].
    apply list_elem_of_singleton in H as ->.
    right. exists w. split; [left|apply stored_same].
  - right. exists v. split; [right|]; assumption.
Qed.

Lemma Set_from_sound (l : list number) (e : number) :
  e ∈ Set_from l -> exists v, v ∈ l /\ sameValueZero e v = true.
Proof.
  intros H. destruct (fold_Set_add_sound l [] e H) as [H'|H']; [|exact H'].
  apply elem_of_nil in H' as [].
Qed.

Lemma axis_sound (comparefn : number -> number -> number) (l : list number)
    (k : number) :
  k ∈ Array_sort comparefn (Set_from l) ->
  exists v, v ∈ l /\ sameValueZero k v = true.
Proof. rewrite Array_sort_perm. apply Set_from_sound. Qed.

(** *** How many keys there are *)

Lemma length_Set_add (entries : list number) (v : number) :
  (length entries <= length (Set_add entries v) <= S (length entries))%nat.
Proof.
  unfold Set_add. destruct (existsb _ _); [lia|].
  rewrite length_app. simpl. lia.
Qed.

Lemma length_fold_Set_add (l entries : list number) :
  (length entries <= length (fold_left Set_add l entries)
   <= length entries + length l)%nat.
Proof.
  revert entries. induction l as [|v l IH]; intros entries; simpl; [lia|].
  pose proof (IH (Set_add entries v)). pose proof (length_Set_add entries v). lia.
Qed.

Lemma length_axis (comparefn : number -> number -> number) (l : list number) :
  (length (Array_sort comparefn (Set_from l)) <= length l)%nat /\
  (0 < length l -> 0 < length (Array_sort comparefn (Set_from l)))%nat.
Proof.
  rewrite (Permutation_length (Array_sort_perm comparefn (Set_from l))).
  unfold Set_from. split.
  - pose proof (length_fold_Set_add l []). simpl in *. lia.
  - destruct l as [|v l]; simpl; [lia|]. intros _.
    pose proof (length_fold_Set_add l (Set_add [] v)).
    pose proof (length_Set_add [] v). simpl in *. lia.
Qed.

(** *** Numbers that are not numbers *)

Lemma isNaN_true (x : number) : isNaN x = true -> Prim2SF x = S754_nan.
Proof.
  rewrite isNaN_spec. destruct (Prim2SF x); simpl; congruence.
Qed.

Lemma eqb_NaN_r (x v : number) : isNaN v = true -> (x =? v) = false.
Proof.
  intros Hv. destruct (x =? v) eqn:E; [|reflexivity].
  apply eqb_notNaN in E as [_ E]. congruence.
Qed.

Lemma indexOf_NaN (l : list number) (v : number) :
  isNaN v = true -> indexOf l v = (-1)%Z.
Proof.
  intros Hv. unfold indexOf. generalize 0%Z.
  induction l as [|x l IH]; intros k; simpl; [reflexivity|].
  unfold strictEq. rewrite (eqb_NaN_r x v Hv). apply IH.
Qed.

Lemma waccKey_NaN (d : Sample) : isNaN (wacc d) = true -> isNaN (waccKey d) = true.
Proof.
  intros H. unfold waccKey, toFixed1.
  assert (E : Prim2SF (wacc d * 100) = S754_nan).
  { rewrite mul_spec, (isNaN_true _ H). reflexivity. }
  rewrite E. reflexivity.
Qed.

Lemma fold_Set_add_has_NaN (l entries : list number) (v : number) :
  v ∈ l -> isNaN v = true ->
  exists e, e ∈ fold_left Set_add l entries /\ isNaN e = true.
Proof.
  revert entries. induction l as [|w l IH]; intros entries Hv Hn.
  - apply elem_of_nil in Hv as [].
  - apply elem_of_cons in Hv as [->|Hv]; simpl; [|apply IH; assumption].
    assert (exists e, e ∈ Set_add entries w /\ isNaN e = true) as (e & He & Hen).
    { unfold Set_add. destruct (existsb (sameValueZero w) entries) eqn:E.
      - apply existsb_true in E as (e & He & H). exists e. split; [assumption|].
        unfold sameValueZero in H. rewrite Hn, (eqb_sym w e), (eqb_NaN_r e w Hn) in H.
        simpl in H. rewrite orb_false_r in H. exact H.
      - eexists. split; [apply elem_of_app; right; left|].
        rewrite stored_isNaN. exact Hn. }
    exists e. split; [|assumption]. apply fold_Set_add_keeps, He.
Qed.

Lemma axis_has_NaN (comparefn : number -> number -> number) (l : list number)
    (v : number) :
  v ∈ l -> isNaN v = true ->
  exists k, k ∈ Array_sort comparefn (Set_from l) /\ isNaN k = true.
Proof.
  intros Hv Hn. destruct (fold_Set_add_has_NaN l [] v Hv Hn) as (e & He & Hen).
  exists e. split; [|assumption]. rewrite Array_sort_perm. exact He.
Qed.

(** *** What the cells hold *)

Lemma cell_zeroMatrix_inv (xKeys yKeys : list number) (y x : nat) (v : number) :
  cell (zeroMatrix xKeys yKeys) y x = Some v -> v = 0.
Proof.
  unfold cell, zeroMatrix. rewrite list_lookup_fmap.
  destruct (yKeys !! y); simpl; [|discriminate].
  intros [-> _]%lookup_replicate. reflexivity.
Qed.

Lemma cell_setCell_inv (matrix : list (list number)) (yIndex xIndex : Z)
    (v w : number) (y x : nat) :
  cell (setCell matrix yIndex xIndex v) y x = Some w ->
  cell matrix y x = Some w \/ (w = v /\ Z.to_nat yIndex = y /\ Z.to_nat xIndex = x).
Proof.
  destruct (decide (Z.to_nat yIndex = y /\ Z.to_nat xIndex = x)) as [[<- <-]|Hne].
  - unfold cell, setCell. rewrite list_lookup_alter_eq.
    destruct (matrix !! Z.to_nat yIndex) as [row|]; simpl; [|discriminate].
    intros H. apply list_lookup_insert_Some in H as [(_ & <- & _)|[? _]];
      [right; auto|congruence].
  - rewrite cell_setCell_ne by (destruct (decide (Z.to_nat yIndex = y)); tauto).
    auto.
Qed.

Lemma fillRow_cell_inv (xKeys yKeys : list number) (matrix : list (list number))
    (d : Sample) (y x : nat) (w : number) :
  cell (fillRow xKeys yKeys matrix d) y x = Some w ->
  cell matrix y x = Some w \/
  (w = equity_irr d * 100 /\
   indexOf xKeys (debt_to_ebitda d) = Z.of_nat x /\
   indexOf yKeys (waccKey d) = Z.of_nat y).
Proof.
  unfold fillRow.
  destruct (indexOf xKeys (debt_to_ebitda d) =? -1)%Z eqn:Ex; [auto|].
  destruct (indexOf yKeys (waccKey d) =? -1)%Z eqn:Ey; [auto|]. simpl.
  apply Z.eqb_neq in Ex, Ey.
  pose proof (indexOf_range _ _ Ex) as Rx. pose proof (indexOf_range _ _ Ey) as Ry.
  intros [Hc|(-> & Hy & Hx)]%cell_setCell_inv; [auto|].
  right. repeat split; lia.
Qed.

Lemma fold_fillRow_cell_inv (xKeys yKeys : list number) (l : list Sample)
    (matrix : list (list number)) (y x : nat) (w : number) :
  cell (fold_left (fillRow xKeys yKeys) l matrix) y x = Some w ->
  cell matrix y x = Some w \/
  exists d, d ∈ l /\ w = equity_irr d * 100 /\
    indexOf xKeys (debt_to_ebitda d) = Z.of_nat x /\
    indexOf yKeys (waccKey d) = Z.of_nat y.
Proof.
  revert matrix. induction l as [|d l IH]; intros matrix H; simpl in H; [auto|].
  destruct (IH _ H) as [H'|(d' & Hd' & H')].
  - apply fillRow_cell_inv in H' as [H'|H']; [auto|].
    right. exists d. split; [left|assumption].
  - right. exists d'. split; [right|]; assumption.
Qed.

End GridMore.

(** ** The order of the axes *)




(** ** Further properties of the grid normalisation *)

Section GridExtras.
Import GridFacts GridMore.

(** X1: on each axis no two keys are strictly equal, whatever the samples
    are. *)
Theorem X1_axis_keys_distinct (gridData : list Sample) :
  (forall i j a b, i <> j ->
     uniqueDebtToEbitda gridData !! i = Some a ->
     uniqueDebtToEbitda gridData !! j = Some b -> (a =? b) = false) /\
  (forall i j a b, i <> j ->
     uniqueWacc gridData !! i = Some a ->
     uniqueWacc gridData !! j = Some b -> (a =? b) = false).
Proof.
  split; intros i j a b; apply Distinct_lookup, axis_distinct.
Qed.

(** X2: every x key is the leverage of some sample and every y key is the
    rounded percentage of some sample, up to SameValueZero. *)
Theorem X2_axis_keys_come_from_samples (gridData : list Sample) :
  (forall k, k ∈ uniqueDebtToEbitda gridData ->
     exists d, d ∈ gridData /\ sameValueZero k (debt_to_ebitda d) = true) /\
  (forall k, k ∈ uniqueWacc gridData ->
     exists d, d ∈ gridData /\ sameValueZero k (waccKey d) = true).
Proof.
  split; intros k Hk; apply axis_sound in Hk as (v & Hv & Hs);
    apply list_elem_of_fmap_1 in Hv as (d & -> & Hd); eauto.
Qed.

(** X3: an axis has at most as many keys as there are samples, and a grid
    with at least one sample gives non-empty axes and a non-empty matrix
    with non-empty rows. *)
Theorem X3_axis_sizes (gridData : list Sample) :
  (length (uniqueDebtToEbitda gridData) <= length gridData)%nat /\
  (length (uniqueWacc gridData) <= length gridData)%nat /\
  ((0 < length gridData)%nat ->
   (0 < length (uniqueDebtToEbitda gridData))%nat /\
   (0 < length (uniqueWacc gridData))%nat /\
   (0 < length (buildMatrix gridData))%nat /\
   Forall (fun row => (0 < length row)%nat) (buildMatrix gridData)).
Proof.
  pose proof (length_axis (fun a b => a - b) (debt_to_ebitda <$> gridData)) as [X1 X2].
  pose proof (length_axis (fun a b => b - a) (waccKey <$> gridData)) as [Y1 Y2].
  rewrite length_fmap in X1, X2, Y1, Y2.
  pose proof (fold_fillRow_shape _ _
    (uniqueDebtToEbitda gridData) (uniqueWacc gridData) gridData _
    (zeroMatrix_shape (uniqueDebtToEbitda gridData) (uniqueWacc gridData)))
    as [S1 S2].
  split; [exact X1|]. split; [exact Y1|]. intros Hn.
  specialize (X2 Hn). specialize (Y2 Hn).
  split; [exact X2|]. split; [exact Y2|]. split.
  - unfold buildMatrix. rewrite S1. exact Y2.
  - eapply Forall_impl; [exact S2|]. simpl. intros row ->. exact X2.
Qed.

(** X4: every cell of the matrix is the initial 0 or the return, times 100,
    of a sample whose keys resolve to that cell. *)
Theorem X4_cells_come_from_samples (gridData : list Sample) (y x : nat)
    (w : number) :
  cell (buildMatrix gridData) y x = Some w ->
  w = 0 \/
  exists d, d ∈ gridData /\ w = equity_irr d * 100 /\
    indexOf (uniqueDebtToEbitda gridData) (debt_to_ebitda d) = Z.of_nat x /\
    indexOf (uniqueWacc gridData) (waccKey d) = Z.of_nat y.
Proof.
  intros H. apply fold_fillRow_cell_inv in H as [H|H]; [left|right; exact H].
  eapply cell_zeroMatrix_inv, H.
Qed.

Lemma X4_cells_come_from_samples_witness :
  0.18 * 100 = 0 \/
  exists d, d ∈ scenarioA /\ 0.18 * 100 = equity_irr d * 100 /\
    indexOf (uniqueDebtToEbitda scenarioA) (debt_to_ebitda d) = Z.of_nat 1 /\
    indexOf (uniqueWacc scenarioA) (waccKey d) = Z.of_nat 0.
Proof.
  apply (X4_cells_come_from_samples scenarioA 0 1 (0.18 * 100)).
  vm_compute. reflexivity.
Defined.

(** X5: a sample whose leverage (or rate) is NaN never writes a cell, yet
    its key takes a column (a row) of the grid, and that column (row) holds
    only the initial zeros. *)
Theorem X5_NaN_sample_is_dropped (gridData : list Sample) (d : Sample) :
  d ∈ gridData ->
  (isNaN (debt_to_ebitda d) = true ->
   (forall xKeys yKeys matrix, fillRow xKeys yKeys matrix d = matrix) /\
   exists x k, uniqueDebtToEbitda gridData !! x = Some k /\ isNaN k = true /\
     forall y, (y < length (uniqueWacc gridData))%nat ->
       cell (buildMatrix gridData) y x = Some 0) /\
  (isNaN (wacc d) = true ->
   (forall xKeys yKeys matrix, fillRow xKeys yKeys matrix d = matrix) /\
   exists y k, uniqueWacc gridData !! y = Some k /\ isNaN k = true /\
     forall x, (x < length (uniqueDebtToEbitda gridData))%nat ->
       cell (buildMatrix gridData) y x = Some 0).
Proof.
  intros Hd. split; intros Hn.
  - split.
    { intros xKeys yKeys matrix. unfold fillRow.
      rewrite (indexOf_NaN xKeys _ Hn). reflexivity. }
    destruct (axis_has_NaN (fun a b => a - b) (debt_to_ebitda <$> gridData)
                (debt_to_ebitda d) (list_elem_of_fmap_2 _ _ _ Hd) Hn)
      as (k & Hk & Hkn).
    apply list_elem_of_lookup in Hk as [x Hx]. exists x, k.
    split; [exact Hx|]. split; [exact Hkn|]. intros y Hy. unfold buildMatrix.
    rewrite fold_fillRow_untouched.
    + apply cell_zeroMatrix; [assumption|]. eapply lookup_lt_Some, Hx.
    + intros d' _ [Ex _].
      destruct (Arrays.indexOf_lookup (uniqueDebtToEbitda gridData)
                  (debt_to_ebitda d') ltac:(lia)) as (_ & e & He & Hev).
      rewrite Ex, Nat2Z.id in He. unfold uniqueDebtToEbitda in Hx.
      assert (e = k) by (unfold uniqueDebtToEbitda in He; congruence). subst e.
      apply Numbers.eqb_notNaN in Hev as [Hev _]. congruence.
  - split.
    { intros xKeys yKeys matrix. unfold fillRow.
      rewrite (indexOf_NaN yKeys _ (waccKey_NaN d Hn)), andb_false_r. reflexivity. }
    destruct (axis_has_NaN (fun a b => b - a) (waccKey <$> gridData)
                (waccKey d) (list_elem_of_fmap_2 _ _ _ Hd) (waccKey_NaN d Hn))
      as (k & Hk & Hkn).
    apply list_elem_of_lookup in Hk as [y Hy]. exists y, k.
    split; [exact Hy|]. split; [exact Hkn|]. intros x Hx. unfold buildMatrix.
    rewrite fold_fillRow_untouched.
    + apply cell_zeroMatrix; [|assumption]. eapply lookup_lt_Some, Hy.
    + intros d' _ [_ Ey].
      destruct (Arrays.indexOf_lookup (uniqueWacc gridData)
                  (waccKey d') ltac:(lia)) as (_ & e & He & Hev).
      rewrite Ey, Nat2Z.id in He.
      assert (e = k) by (unfold uniqueWacc in He, Hy; congruence). subst e.
      apply Numbers.eqb_notNaN in Hev as [Hev _]. congruence.
Qed.

Lemma X5_NaN_sample_is_dropped_witness :
  exists x k,
    uniqueDebtToEbitda [mkSample nan 0.08 0.22; mkSample 3 0.10 0.18] !! x = Some k /\
    isNaN k = true /\
    forall y,
      (y < length (uniqueWacc [mkSample nan 0.08 0.22; mkSample 3 0.10 0.18]))%nat ->
      cell (buildMatrix [mkSample nan 0.08 0.22; mkSample 3 0.10 0.18]) y x = Some 0.
Proof.
  refine (proj2 (proj1 (X5_NaN_sample_is_dropped
            [mkSample nan 0.08 0.22; mkSample 3 0.10 0.18]
            (mkSample nan 0.08 0.22) _) _)).
  - left.
  - reflexivity.
Defined.

End GridExtras.

(** ** More on the order of numbers *)

Module NumbersMore.
Import JS Order Numbers.
Local Open Scope float_scope.

Lemma leb_iff (x y : number) :
  (x <=? y) = true <->
  isNaN x = false /\ isNaN y = false /\ lexcmp (rk x) (rk y) <> Gt.
Proof.
  rewrite leb_spec, !isNaN_spec. unfold SFleb, rk.
  destruct (notNaN (Prim2SF x)) eqn:Hx, (notNaN (Prim2SF y)) eqn:Hy;
    rewrite ?SFcompare_rank by assumption;
    rewrite ?SFcompare_nan by (rewrite Hx, Hy; reflexivity); simpl;
    try (split; [discriminate|intros (? & ? & ?); discriminate]).
  destruct (lexcmp _ _); intuition congruence.
Qed.

Lemma leb_refl (x : number) : isNaN x = false -> (x <=? x) = true.
Proof.
  intros H. apply leb_iff. repeat split; try assumption.
  replace (lexcmp (rk x) (rk x)) with Eq; [discriminate|].
  symmetry. apply lexcmp_eq. reflexivity.
Qed.

Lemma ltb_leb (x y : number) : (x <? y) = true -> (x <=? y) = true.
Proof.
  rewrite ltb_iff, leb_iff. intros (? & ? & ->). repeat split; auto.
Qed.

Lemma not_ltb_leb (x y : number) :
  isNaN x = false -> isNaN y = false -> (x <? y) = false -> (y <=? x) = true.
Proof.
  intros Hx Hy H. apply leb_iff. repeat split; try assumption.
  rewrite lexcmp_antisym. destruct (lexcmp (rk x) (rk y)) eqn:E; try discriminate.
  assert ((x <? y) = true) by (apply ltb_iff; auto). congruence.
Qed.

Lemma leb_trans (x y z : number) :
  (x <=? y) = true -> (y <=? z) = true -> (x <=? z) = true.
Proof.
  rewrite !leb_iff. intros (Hx & Hy & H1) (_ & Hz & H2).
  repeat split; try assumption. intros H3.
  destruct (lexcmp (rk x) (rk y)) eqn:E1; [|clear H1|congruence].
  - apply lexcmp_eq in E1. rewrite E1 in H3. congruence.
  - destruct (lexcmp (rk y) (rk z)) eqn:E2; [|clear H2|congruence].
    + apply lexcmp_eq in E2. rewrite <- E2 in H3. congruence.
    + pose proof (lexcmp_lt_trans _ _ _ E1 E2). congruence.
Qed.

Lemma leb_eqb_l (x x' y : number) : (x =? x') = true -> (x <=? y) = (x' <=? y).
Proof.
  intros H. apply eqb_iff in H as (? & ? & E).
  apply eq_true_iff_eq. rewrite !leb_iff, E. tauto.
Qed.

Lemma leb_eqb_r (x y y' : number) : (y =? y') = true -> (x <=? y) = (x <=? y').
Proof.
  intros H. apply eqb_iff in H as (? & ? & E).
  apply eq_true_iff_eq. rewrite !leb_iff, E. tauto.
Qed.

Lemma leb_self (x : number) : (x <=? x) = negb (isNaN x).
Proof.
  destruct (isNaN x) eqn:H; simpl.
  - destruct (x <=? x) eqn:E; [|reflexivity].
    apply leb_iff in E as (E & _). congruence.
  - apply leb_refl, H.
Qed.

End NumbersMore.

(** ** More on the chart *)

Module ChartMore.
Import JS Order Numbers NumbersMore D3 Heatmap Extremes Nodes.
Local Open Scope float_scope.

Lemma min_as_pick (values : list number) :
  D3.min values = fold_left (pick (fun a b => a <? b)) values None.
Proof. reflexivity. Qed.

Lemma max_as_pick (values : list number) :
  D3.max values = fold_left (pick (fun a b => b <? a)) values None.
Proof. reflexivity. Qed.

Section Best.
(** [before] is a strict order with the weak order [upto]. *)
Variable before upto : number -> number -> bool.
Hypothesis before_upto : forall x y, before x y = true -> upto x y = true.
Hypothesis not_before : forall x y,
  isNaN x = false -> isNaN y = false -> before x y = false -> upto y x = true.
Hypothesis upto_refl : forall x, isNaN x = false -> upto x x = true.
Hypothesis upto_trans : forall x y z,
  upto x y = true -> upto y z = true -> upto x z = true.
Hypothesis before_notNaN : forall x y, before x y = true -> isNaN x = false.

Lemma fold_pick_best (values : list number) (best : option number) :
  (forall a, best = Some a -> isNaN a = false) ->
  match fold_left (pick before) values best with
  | None => best = None /\ Forall (fun v => isNaN v = true) values
  | Some m =>
      isNaN m = false /\
      (forall a, best = Some a -> upto m a = true) /\
      Forall (fun v => isNaN v = false -> upto m v = true) values
  end.
Proof.
  revert best. induction values as [|v values IH]; intros best Hb; simpl.
  - destruct best as [a|]; [|split; [reflexivity|constructor]].
    split; [auto|]. split; [|constructor]. intros ? [= <-]. apply upto_refl. auto.
  - assert (Hp : forall a, pick before best v = Some a -> isNaN a = false).
    { intros a. unfold pick. destruct best as [b|].
      - destruct (before v b) eqn:E; intros [= <-]; eauto.
      - rewrite leb_self. destruct (isNaN v) eqn:E; simpl;
          [discriminate|intros [= <-]; exact E]. }
    specialize (IH (pick before best v) Hp).
    destruct (fold_left (pick before) values (pick before best v)) as [m|].
    + destruct IH as (Hm & Hu & Hall). split; [exact Hm|].
      unfold pick in Hu. destruct best as [b|].
      * specialize (Hb b eq_refl). destruct (before v b) eqn:E.
        -- specialize (Hu v eq_refl). split.
           ++ intros ? [= <-]. eapply upto_trans; [exact Hu|]. auto.
           ++ constructor; [auto|exact Hall].
        -- specialize (Hu b eq_refl). split; [intros ? [= <-]; exact Hu|].
           constructor; [|exact Hall]. intros Hv.
           eapply upto_trans; [exact Hu|]. apply not_before; assumption.
      * split; [discriminate|]. constructor; [|exact Hall].
        intros Hv. apply Hu. rewrite leb_self, Hv. reflexivity.
    + destruct IH as (Hn & Hall). unfold pick in Hn. destruct best as [b|].
      * destruct (before v b); discriminate.
      * split; [reflexivity|]. constructor; [|exact Hall].
        rewrite leb_self in Hn. destruct (isNaN v); [reflexivity|discriminate].
Qed.
End Best.

(** [min] is a lower bound and [max] an upper bound of the values that are
    numbers. *)
Lemma min_lower (values : list number) (v : number) :
  v ∈ values -> isNaN v = false ->
  exists m, D3.min values = Some m /\ isNaN m = false /\ (m <=? v) = true.
Proof.
  intros Hv Hn. rewrite min_as_pick.
  pose proof (fold_pick_best (fun a b => a <? b) (fun a b => a <=? b)
                ltb_leb not_ltb_leb leb_refl leb_trans
                (fun x y H => proj1 (ltb_notNaN x y H)) values None
                ltac:(discriminate)) as H.
  destruct (fold_left _ values None) as [m|].
  - destruct H as (Hm & _ & Hall). exists m. repeat split; try assumption.
    rewrite Forall_forall in Hall. auto.
  - destruct H as (_ & Hall). rewrite Forall_forall in Hall.
    specialize (Hall v Hv). congruence.
Qed.

Lemma max_upper (values : list number) (v : number) :
  v ∈ values -> isNaN v = false ->
  exists m, D3.max values = Some m /\ isNaN m = false /\ (v <=? m) = true.
Proof.
  intros Hv Hn. rewrite max_as_pick.
  pose proof (fold_pick_best (fun a b => b <? a) (fun a b => b <=? a)
                (fun x y => ltb_leb y x)
                (fun x y Hx Hy => not_ltb_leb y x Hy Hx)
                leb_refl
                (fun x y z H1 H2 => leb_trans z y x H2 H1)
                (fun x y H => proj2 (ltb_notNaN y x H)) values None
                ltac:(discriminate)) as H.
  destruct (fold_left _ values None) as [m|].
  - destruct H as (Hm & _ & Hall). exists m. repeat split; try assumption.
    rewrite Forall_forall in Hall. auto.
  - destruct H as (_ & Hall). rewrite Forall_forall in Hall.
    specialize (Hall v Hv). congruence.
Qed.

(** On values that all equal [c], the loop ends on a value equal to [c]. *)
Lemma fold_pick_constant (before : number -> number -> bool) (c : number)
    (values : list number) (best : option number) :
  Forall (fun v => (v =? c) = true) values ->
  (forall a, best = Some a -> (a =? c) = true) ->
  (values <> [] \/ best <> None) ->
  exists m, fold_left (pick before) values best = Some m /\ (m =? c) = true.
Proof.
  revert best. induction values as [|v values IH]; intros best Hall Hb Hne; simpl.
  - destruct best as [a|]; [eauto|]. destruct Hne; congruence.
  - apply Forall_cons in Hall as [Hv Hall]. apply IH; [exact Hall| |].
    + intros a. unfold pick. destruct best as [b|].
      * destruct (before v b); intros [= <-]; auto.
      * destruct (v <=? v); intros [= <-]; auto.
    + right. unfold pick. destruct best as [b|].
      * destruct (before v b); discriminate.
      * rewrite leb_self. apply eqb_notNaN in Hv as [-> _]. discriminate.
Qed.

(** *** Counting the drawn cells *)

Lemma length_concat_imap {A B} (g : nat -> list A -> list B) (l : list (list A)) :
  (forall i row, length (g i row) = length row) ->
  length (concat (imap g l)) = length (concat l).
Proof.
  revert g. induction l as [|row l IH]; intros g Hg; simpl; [reflexivity|].
  rewrite !length_app, Hg. f_equal. apply IH. intros i r. apply Hg.
Qed.

Lemma length_forCells (p : HeatmapProps) (draw : nat -> nat -> number -> node) :
  length (forCells p draw) = length (concat (data p)).
Proof.
  unfold forCells. apply length_concat_imap. intros i row. apply length_imap.
Qed.

Lemma Forall_concat_imap {A B} (P : B -> Prop) (g : nat -> list A -> list B)
    (l : list (list A)) :
  (forall i row, Forall P (g i row)) -> Forall P (concat (imap g l)).
Proof.
  revert g. induction l as [|row l IH]; intros g Hg; simpl; [constructor|].
  apply Forall_app. split; [apply Hg|]. apply IH. intros i r. apply Hg.
Qed.

Lemma Forall_imap {A B} (P : B -> Prop) (f : nat -> A -> B) (l : list A) :
  (forall i x, P (f i x)) -> Forall P (imap f l).
Proof.
  revert f. induction l as [|x l IH]; intros f Hf; simpl; constructor; [apply Hf|].
  apply IH. intros i y. apply Hf.
Qed.

Lemma forCells_all (p : HeatmapProps) (draw : nat -> nat -> number -> node)
    (P : node -> Prop) :
  (forall i j v, P (draw i j v)) -> Forall P (forCells p draw).
Proof.
  intros H. unfold forCells. apply Forall_concat_imap. intros i row.
  apply Forall_imap. intros j v. apply H.
Qed.

(** *** The ordinal domain *)

Lemma fold_intern_spec (labels domain : list string) :
  NoDup domain ->
  NoDup (fold_left (fun domain v =>
           if bool_decide (v ∈ domain) then domain else domain ++ [v]) labels domain)
  /\ forall x, x ∈ fold_left (fun domain v =>
           if bool_decide (v ∈ domain) then domain else domain ++ [v]) labels domain
       <-> x ∈ domain \/ x ∈ labels.
Proof.
  revert domain. induction labels as [|v labels IH]; intros domain Hn; simpl.
  - split; [assumption|]. intros x. rewrite elem_of_nil. tauto.
  - destruct (bool_decide_reflect (v ∈ domain)) as [Hv|Hv].
    + destruct (IH domain Hn) as [H1 H2]. split; [exact H1|].
      intros x. rewrite H2, elem_of_cons. split; [tauto|].
      intros [?|[->|?]]; tauto.
    + assert (Hn' : NoDup (domain ++ [v])).
      { apply NoDup_app. split; [assumption|]. split; [|apply NoDup_singleton].
        intros x Hx ->%list_elem_of_singleton. contradiction. }
      destruct (IH _ Hn') as [H1 H2]. split; [exact H1|].
      intros x. rewrite H2, elem_of_app, list_elem_of_singleton, elem_of_cons. tauto.
Qed.

Lemma internDomain_spec (labels : list string) :
  NoDup (internDomain labels) /\ forall x, x ∈ internDomain labels <-> x ∈ labels.
Proof.
  destruct (fold_intern_spec labels [] (NoDup_nil_2)) as [H1 H2].
  split; [exact H1|]. intros x. unfold internDomain. rewrite H2, elem_of_nil. tauto.
Qed.

Lemma indexGet_elem (domain : list string) (d : string) :
  d ∈ domain -> exists i, indexGet domain d = Some i /\ (i < length domain)%nat.
Proof.
  induction domain as [|v rest IH]; intros H; [apply elem_of_nil in H as []|].
  simpl. destruct (bool_decide_reflect (v = d)) as [->|Hne].
  - exists 0%nat. split; [reflexivity|lia].
  - apply elem_of_cons in H as [->|H]; [contradiction|].
    destruct (IH H) as (i & -> & Hi). exists (S i). split; [reflexivity|lia].
Qed.

Lemma length_band_range (labels : list string) (r0 r1 padding : number) :
  length (band_range (scaleBand labels r0 r1 padding))
  = length (band_domain (scaleBand labels r0 r1 padding)).
Proof.
  unfold scaleBand. simpl.
  destruct (r1 <? r0); rewrite ?length_reverse; apply ChartFacts.length_bandValues.
Qed.

(** A label of the domain always has a band. *)
Lemma applyBand_elem (labels : list string) (r0 r1 padding : number) (d : string) :
  d ∈ labels -> is_Some (applyBand (scaleBand labels r0 r1 padding) (Some d)).
Proof.
  intros Hd.
  destruct (indexGet_elem (internDomain labels) d) as (i & Hi & Hlt).
  { apply internDomain_spec, Hd. }
  pose proof (length_band_range labels r0 r1 padding) as L.
  assert (D : band_domain (scaleBand labels r0 r1 padding) = internDomain labels)
    by reflexivity.
  remember (scaleBand labels r0 r1 padding) as s eqn:Hs. clear Hs.
  unfold applyBand. simpl. rewrite D, Hi. simpl.
  apply lookup_lt_is_Some. rewrite L, D.
  rewrite Nat.mod_small; assumption.
Qed.

(** With distinct labels and a range that is not reversed, label [i] gets
    the slot [i]. *)
Lemma applyBand_forward (labels : list string) (r0 r1 padding : number)
    (i : nat) (d : string) :
  NoDup labels -> (r1 <? r0) = false -> labels !! i = Some d ->
  applyBand (scaleBand labels r0 r1 padding) (Some d)
  = bandValues (length labels) r0 r1 padding !! i.
Proof.
  intros Hn Hr Hi. unfold applyBand, scaleBand. simpl.
  rewrite (ChartFacts.internDomain_NoDup labels Hn), Hr,
    (ChartFacts.indexGet_NoDup labels i d Hn Hi).
  simpl. rewrite ChartFacts.length_bandValues.
  rewrite Nat.mod_small by (eapply lookup_lt_Some, Hi). reflexivity.
Qed.

End ChartMore.

(** ** Scenario D *)

Module ScenarioFacts.
Import JS D3 Heatmap Extremes.
Local Open Scope float_scope.

(** The loop of [min] and [max] ends on the value it started with or on one
    of the values. *)
Lemma fold_pick_elem (before : number -> number -> bool) (values : list number)
    (best : option number) (m : number) :
  fold_left (pick before) values best = Some m -> best = Some m \/ m ∈ values.
Proof.
  revert best. induction values as [|v values IH]; intros best H; simpl in H;
    [left; exact H|].
  apply IH in H as [H|H]; [|right; right; exact H].
  unfold pick in H. destruct best as [b|].
  - destruct (before v b); [|left; exact H].
    injection H as ->. right. left.
  - destruct (v <=? v); [|discriminate]. injection H as ->. right. left.
Qed.

Lemma min_elem (values : list number) (m : number) :
  D3.min values = Some m -> m ∈ values.
Proof.
  rewrite ChartMore.min_as_pick. intros [H|H]%fold_pick_elem; [discriminate|exact H].
Qed.

Lemma max_elem (values : list number) (m : number) :
  D3.max values = Some m -> m ∈ values.
Proof.
  rewrite ChartMore.max_as_pick. intros [H|H]%fold_pick_elem; [discriminate|exact H].
Qed.

(** A cell of the matrix is one of its flattened values. *)
Lemma cell_in_flat (data : list (list number)) (i j : nat) (row : list number)
    (v : number) :
  data !! i = Some row -> row !! j = Some v -> v ∈ concat data.
Proof.
  intros Hi Hj. apply list_elem_of_In, in_concat. exists row.
  split; apply list_elem_of_In; eapply list_elem_of_lookup_2; eassumption.
Qed.

(** Every node the two loops draw is drawn for some cell. *)
Lemma forCells_inv (p : HeatmapProps) (draw : nat -> nat -> number -> node)
    (n : node) :
  n ∈ forCells p draw ->
  exists i j row v, data p !! i = Some row /\ row !! j = Some v /\ n = draw i j v.
Proof.
  unfold forCells. intros H. apply list_elem_of_In, in_concat in H as (l & Hl & Hn).
  apply list_elem_of_In, list_elem_of_lookup in Hl as [i Hi].
  apply list_elem_of_In, list_elem_of_lookup in Hn as [j Hj].
  rewrite list_lookup_imap in Hi.
  destruct (data p !! i) as [row|] eqn:Hrow; [|discriminate].
  injection Hi as <-. rewrite list_lookup_imap in Hj.
  destruct (row !! j) as [v|] eqn:Hv; [|discriminate].
  injection Hj as <-. exists i, j, row, v. auto.
Qed.

End ScenarioFacts.

Import Nodes.

(** C8 (scenario D): a matrix whose cells are -5, 0 and 12, in any
    arrangement and with repeats, has the colour domain [-5, 12]; the effect
    draws over every cell a text with the cell's value, filled in the "else"
    colour [#fff] on -5 and on 0 and in the "> 0" colour [#000] on 12, and
    draws no other text. *)
Theorem C8_scenario_D (p : HeatmapProps) (svg : svgElement) :
  Forall (fun v => v = -5 \/ v = 0 \/ v = 12) (concat (data p)) ->
  -5 ∈ concat (data p) -> 12 ∈ concat (data p) ->
  colorDomain (data p) = (-5, 12) /\
  (t0 (colorScale p), t1 (colorScale p)) = (-5, 12) /\
  exists inner rest,
    render p (Some svg)
    = Some (mkSvg (Some (width p)) (Some (height p))
              (G (Some (margin_left, margin_top)) inner :: rest)) /\
    (forall i j row v, data p !! i = Some row -> row !! j = Some v ->
       exists fill,
         CellText (cellX p j + band_bandwidth (xScale p) / 2)
           (cellY p i + band_bandwidth (yScale p) / 2) fill v ∈ inner /\
         ((v = 12 /\ fill = "#000") \/ ((v = -5 \/ v = 0) /\ fill = "#fff"))) /\
    (forall x y fill v, CellText x y fill v ∈ inner ->
       (v = 12 /\ fill = "#000") \/ ((v = -5 \/ v = 0) /\ fill = "#fff")).
Proof.
  intros Hall Hlo Hhi. rewrite Forall_forall in Hall.
  assert (F : forall v, v ∈ concat (data p) ->
            (v = 12 /\ textFill v = "#000")
            \/ ((v = -5 \/ v = 0) /\ textFill v = "#fff")).
  { intros v Hv. destruct (Hall v Hv) as [->|[->| ->]];
      [right|right|left]; (split; [auto|vm_compute; reflexivity]). }
  assert (D : colorDomain (data p) = (-5, 12)).
  { unfold colorDomain.
    destruct (ChartMore.min_lower _ (-5) Hlo ltac:(reflexivity)) as (m & Em & _ & Hm).
    destruct (ChartMore.max_upper _ 12 Hhi ltac:(reflexivity)) as (M & EM & _ & HM).
    rewrite Em, EM.
    destruct (Hall m (ScenarioFacts.min_elem _ _ Em)) as [->|[->| ->]];
      try (vm_compute in Hm; discriminate).
    destruct (Hall M (ScenarioFacts.max_elem _ _ EM)) as [->|[->| ->]];
      try (vm_compute in HM; discriminate).
    vm_compute. reflexivity. }
  split; [exact D|]. split; [unfold colorScale; rewrite D; reflexivity|].
  unfold render.
  rewrite bool_decide_eq_false_2
    by (intros E; rewrite E in Hlo; apply elem_of_nil in Hlo as []).
  eexists _, _. split; [reflexivity|]. split.
  - intros i j row v Hi Hj. exists (textFill v). split.
    + apply elem_of_app. right. apply elem_of_app. left.
      exact (ChartFacts.forCells_elem p (cellText p) i j row v Hi Hj).
    + apply F. exact (ScenarioFacts.cell_in_flat _ i j row v Hi Hj).
  - intros x y fill v Hin.
    apply elem_of_app in Hin as [Hin|Hin];
      [|apply elem_of_app in Hin as [Hin|Hin]].
    + apply ScenarioFacts.forCells_inv in Hin as (i & j & row & v' & _ & _ & E).
      discriminate.
    + apply ScenarioFacts.forCells_inv in Hin as (i & j & row & v' & Hi & Hj & E).
      unfold cellText in E. injection E as _ _ -> ->.
      apply F. exact (ScenarioFacts.cell_in_flat _ i j row v' Hi Hj).
    + apply elem_of_cons in Hin as [Hin|Hin]; [discriminate|].
      apply elem_of_cons in Hin as [Hin|Hin]; [discriminate|].
      apply elem_of_nil in Hin as [].
Qed.

Lemma C8_scenario_D_witness :
  colorDomain (data scenarioD) = (-5, 12) /\
  (t0 (colorScale scenarioD), t1 (colorScale scenarioD)) = (-5, 12) /\
  exists inner rest,
    render scenarioD (Some (mkSvg None None []))
    = Some (mkSvg (Some (width scenarioD)) (Some (height scenarioD))
              (G (Some (margin_left, margin_top)) inner :: rest)) /\
    (forall i j row v, data scenarioD !! i = Some row -> row !! j = Some v ->
       exists fill,
         CellText (cellX scenarioD j + band_bandwidth (xScale scenarioD) / 2)
           (cellY scenarioD i + band_bandwidth (yScale scenarioD) / 2) fill v
           ∈ inner /\
         ((v = 12 /\ fill = "#000") \/ ((v = -5 \/ v = 0) /\ fill = "#fff"))) /\
    (forall x y fill v, CellText x y fill v ∈ inner ->
       (v = 12 /\ fill = "#000") \/ ((v = -5 \/ v = 0) /\ fill = "#fff")).
Proof.
  apply (C8_scenario_D scenarioD (mkSvg None None [])).
  - simpl. repeat (constructor; [solve [auto]|]). constructor.
  - left.
  - right. right. left.
Defined.

(** ** Further properties of the chart *)

Section ChartExtras.
Import Nodes ChartMore NumbersMore.

(** X6: running the effect again on its own result changes nothing. *)
Theorem X6_render_idempotent (p : HeatmapProps) (current : option svgElement) :
  render p (render p current) = render p current.
Proof.
  destruct current as [svg|]; [|reflexivity]. unfold render.
  destruct (bool_decide (data p = [])) eqn:E; rewrite ?E; reflexivity.
Qed.

(** X7: for a non-empty matrix the plot group holds one rectangle per cell,
    then one text per cell, then the two axes; beside the group the svg
    holds the two captions, and the title when there is one. *)
Theorem X7_one_rect_and_text_per_cell (p : HeatmapProps) (svg : svgElement) :
  data p <> [] ->
  exists rects texts axes rest,
    render p (Some svg)
    = Some (mkSvg (Some (width p)) (Some (height p))
              (G (Some (margin_left, margin_top)) (rects ++ texts ++ axes) :: rest)) /\
    length rects = length (concat (data p)) /\
    length texts = length (concat (data p)) /\
    Forall (fun n => isCellRect n = true) rects /\
    Forall (fun n => isCellText n = true) texts /\
    length axes = 2%nat /\
    length rest = (length (titleNodes p) + 2)%nat /\
    (length (titleNodes p) <= 1)%nat.
Proof.
  intros Hd. unfold render. rewrite bool_decide_eq_false_2 by assumption.
  eexists _, _, _, _. split; [reflexivity|].
  repeat split; try apply length_forCells.
  - apply forCells_all. reflexivity.
  - apply forCells_all. reflexivity.
  - rewrite length_app. simpl. lia.
  - unfold titleNodes. destruct (title p) as [t|]; [|simpl; lia].
    destruct (bool_decide (t = EmptyString)); simpl; lia.
Qed.

Lemma X7_one_rect_and_text_per_cell_witness :
  exists rects texts axes rest,
    render twoByTwo (Some (mkSvg None None []))
    = Some (mkSvg (Some (width twoByTwo)) (Some (height twoByTwo))
              (G (Some (margin_left, margin_top)) (rects ++ texts ++ axes) :: rest)) /\
    length rects = length (concat (data twoByTwo)) /\
    length texts = length (concat (data twoByTwo)) /\
    Forall (fun n => isCellRect n = true) rects /\
    Forall (fun n => isCellText n = true) texts /\
    length axes = 2%nat /\
    length rest = (length (titleNodes twoByTwo) + 2)%nat /\
    (length (titleNodes twoByTwo) <= 1)%nat.
Proof.
  apply (X7_one_rect_and_text_per_cell twoByTwo (mkSvg None None [])).
  discriminate.
Defined.

(** X8: every cell that is a number lies inside the colour domain. *)
Theorem X8_cells_inside_color_domain (p : HeatmapProps) (v : number) :
  v ∈ concat (data p) -> isNaN v = false ->
  (t0 (colorScale p) <=? v) = true /\ (v <=? t1 (colorScale p)) = true.
Proof.
  intros Hv Hn. unfold colorScale, colorDomain. simpl.
  destruct (min_lower _ v Hv Hn) as (m & -> & Hm & Hmv).
  destruct (max_upper _ v Hv Hn) as (M & -> & HM & HvM).
  split.
  - rewrite (leb_eqb_l _ m _ (ChartFacts.or0_eqb m Hm)). exact Hmv.
  - rewrite (leb_eqb_r _ _ M (ChartFacts.or0_eqb M HM)). exact HvM.
Qed.

Lemma X8_cells_inside_color_domain_witness :
  (t0 (colorScale twoByTwo) <=? 18) = true /\ (18 <=? t1 (colorScale twoByTwo)) = true.
Proof.
  apply (X8_cells_inside_color_domain twoByTwo 18).
  - vm_compute. right. left.
  - reflexivity.
Defined.

(** X9: when all cells are the same number the colour domain is a single
    point, and every cell gets the middle colour of the ramp. *)
Theorem X9_constant_matrix_is_mid_colour (p : HeatmapProps) (c : number) :
  concat (data p) <> [] ->
  Forall (fun v => (v =? c) = true) (concat (data p)) ->
  Forall (fun v => applySequential (colorScale p) v = Some (RdYlBu 0.5))
    (concat (data p)).
Proof.
  intros Hne Hall.
  destruct (fold_pick_constant (fun a b => a <? b) c _ None Hall
              ltac:(discriminate) (or_introl Hne)) as (m & Em & Hm).
  destruct (fold_pick_constant (fun a b => b <? a) c _ None Hall
              ltac:(discriminate) (or_introl Hne)) as (M & EM & HM).
  rewrite <- min_as_pick in Em. rewrite <- max_as_pick in EM.
  assert (K : k10 (colorScale p) = 0).
  { unfold colorScale, colorDomain, scaleSequential. simpl. rewrite Em, EM.
    pose proof (Numbers.eqb_notNaN _ _ Hm) as [Nm _].
    pose proof (Numbers.eqb_notNaN _ _ HM) as [NM _].
    replace (or0 (Some m) =? or0 (Some M)) with true; [reflexivity|].
    symmetry. apply Numbers.eqb_trans with m; [apply ChartFacts.or0_eqb, Nm|].
    apply Numbers.eqb_trans with c; [exact Hm|].
    apply Numbers.eqb_trans with M; [rewrite Numbers.eqb_sym; exact HM|].
    rewrite Numbers.eqb_sym. apply ChartFacts.or0_eqb, NM. }
  eapply Forall_impl; [exact Hall|]. simpl. intros v Hv.
  unfold applySequential. rewrite K.
  apply Numbers.eqb_notNaN in Hv as [-> _]. reflexivity.
Qed.

Lemma X9_constant_matrix_is_mid_colour_witness :
  Forall (fun v =>
            applySequential (colorScale (defaultProps [[7; 7]; [7]] [] [] None)) v
            = Some (RdYlBu 0.5))
    (concat (data (defaultProps [[7; 7]; [7]] [] [] None))).
Proof.
  apply (X9_constant_matrix_is_mid_colour (defaultProps [[7; 7]; [7]] [] [] None) 7).
  - discriminate.
  - repeat constructor.
Defined.

(** X10: the x range is not reversed, so with distinct x labels and an inner
    width that is not negative the label [j] gets the slot [j]; whenever the
    slot offsets increase with the slot, columns run left to right in label
    order. *)
Theorem X10_columns_left_to_right (p : HeatmapProps) (j : nat) :
  NoDup (xLabels p) ->
  (innerWidth p <? 0) = false ->
  (j < length (xLabels p))%nat ->
  applyBand (xScale p) (xLabels p !! j)
  = bandValues (length (xLabels p)) 0 (innerWidth p) 0.05 !! j /\
  (Ascending (bandValues (length (xLabels p)) 0 (innerWidth p) 0.05) ->
   forall j', (j' < j)%nat -> (cellX p j' <? cellX p j) = true).
Proof.
  intros Hn Hw Hlt.
  destruct (lookup_lt_is_Some_2 (xLabels p) j Hlt) as [d Hd].
  pose proof (applyBand_forward _ _ _ 0.05 j d Hn Hw Hd) as Ej.
  split; [rewrite Hd; exact Ej|].
  intros Hs j' Hj'.
  destruct (lookup_lt_is_Some_2 (xLabels p) j' ltac:(lia)) as [d' Hd'].
  pose proof (applyBand_forward _ _ _ 0.05 j' d' Hn Hw Hd') as Ej'.
  unfold cellX, xScale. rewrite Hd, Hd', Ej, Ej'.
  set (values := bandValues _ _ _ _) in *.
  pose proof (ChartFacts.length_bandValues (length (xLabels p)) 0 (innerWidth p) 0.05)
    as Hlen. fold values in Hlen.
  destruct (lookup_lt_is_Some_2 values j ltac:(lia)) as [a Ha].
  destruct (lookup_lt_is_Some_2 values j' ltac:(lia)) as [b Hb].
  rewrite Ha, Hb. apply ChartFacts.or0_ltb.
  exact (GridFacts.StronglySorted_lookup _ values j' j b a Hs Hj' Hb Ha).
Qed.

Lemma X10_columns_left_to_right_witness :
  (cellX twoByTwo 0 <? cellX twoByTwo 1) = true.
Proof.
  refine (proj2 (X10_columns_left_to_right twoByTwo 1 _ _ _) _ 0%nat _).
  - apply (bool_decide_unpack _). vm_compute. exact I.
  - vm_compute. reflexivity.
  - simpl. lia.
  - unfold Ascending. vm_compute. repeat constructor.
  - lia.
Defined.

(** X11: a label that is present always has a band, also when it repeats an
    earlier label; each scale keeps every label once. *)
Theorem X11_present_labels_resolve (p : HeatmapProps) :
  (forall i, (i < length (yLabels p))%nat ->
     is_Some (applyBand (yScale p) (yLabels p !! i))) /\
  (forall j, (j < length (xLabels p))%nat ->
     is_Some (applyBand (xScale p) (xLabels p !! j))) /\
  NoDup (band_domain (yScale p)) /\ NoDup (band_domain (xScale p)) /\
  (length (band_domain (yScale p)) <= length (yLabels p))%nat /\
  (length (band_domain (xScale p)) <= length (xLabels p))%nat.
Proof.
  assert (R : forall labels r0 r1 i, (i < length labels)%nat ->
            is_Some (applyBand (scaleBand labels r0 r1 0.05) (labels !! i))).
  { intros labels r0 r1 i Hi.
    destruct (lookup_lt_is_Some_2 labels i Hi) as [d Hd]. rewrite Hd.
    apply applyBand_elem. eapply list_elem_of_lookup_2, Hd. }
  assert (L : forall labels : list string,
            (length (internDomain labels) <= length labels)%nat).
  { intros labels. destruct (internDomain_spec labels) as [H1 H2].
    apply submseteq_length, NoDup_submseteq; [exact H1|].
    intros x. apply H2. }
  split; [intros i; apply R|]. split; [intros j; apply R|].
  split; [apply internDomain_spec|]. split; [apply internDomain_spec|].
  split; apply L.
Qed.

End ChartExtras.

(** ** The heat-map tab, the page state and the recent tickers *)

Section PageExtras.
Import HeatmapTab ModelPage RecentTickers.

(** X12: whenever the tab mounts the chart, the chart gets a non-empty
    matrix with non-empty rows, one y label per row and one x label per
    column, the fixed title and the default size; so from this caller the
    effect never returns early on empty data and never meets a missing
    label. *)
Theorem X12_tab_mounts_a_drawable_chart (toFixed1Text : number -> string)
    (modelId : option string) (modelResults : option ModelResults)
    (p : HeatmapProps) :
  heatmapTab toFixed1Text modelId modelResults = Chart p ->
  data p <> [] /\
  Forall (fun row => row <> []) (data p) /\
  length (yLabels p) = length (data p) /\
  Forall (fun row => length row = length (xLabels p)) (data p) /\
  title p = Some "Equity IRR (%) across Capital Structure" /\
  width p = 600 /\ height p = 400.
Proof.
  unfold heatmapTab. destruct (truthy modelId); [|discriminate].
  destruct modelResults as [[[[|d rest]|]]|]; try discriminate.
  intros [= <-]. unfold chartProps, defaultProps. simpl.
  set (gridData := d :: rest).
  pose proof (GridFacts.fold_fillRow_shape _ _
    (uniqueDebtToEbitda gridData) (uniqueWacc gridData) gridData _
    (GridFacts.zeroMatrix_shape (uniqueDebtToEbitda gridData) (uniqueWacc gridData)))
    as [S1 S2].
  pose proof (GridMore.length_axis (fun a b => a - b) (debt_to_ebitda <$> gridData))
    as [_ X].
  pose proof (GridMore.length_axis (fun a b => b - a) (waccKey <$> gridData))
    as [_ Y].
  rewrite length_fmap in X, Y. specialize (X ltac:(simpl; lia)).
  specialize (Y ltac:(simpl; lia)).
  fold (uniqueDebtToEbitda gridData) in X. fold (uniqueWacc gridData) in Y.
  fold (buildMatrix gridData) in S1, S2.
  repeat split.
  - intros E. rewrite E in S1. simpl in S1. lia.
  - eapply Forall_impl; [exact S2|]. simpl. intros row Hr ->. simpl in Hr. lia.
  - rewrite length_fmap. symmetry. exact S1.
  - rewrite length_fmap. exact S2.
Qed.

Lemma X12_tab_mounts_a_drawable_chart_witness :
  data (chartProps (fun _ => "3.0") scenarioA) <> [] /\
  Forall (fun row => row <> []) (data (chartProps (fun _ => "3.0") scenarioA)) /\
  length (yLabels (chartProps (fun _ => "3.0") scenarioA))
  = length (data (chartProps (fun _ => "3.0") scenarioA)) /\
  Forall (fun row => length row
                     = length (xLabels (chartProps (fun _ => "3.0") scenarioA)))
    (data (chartProps (fun _ => "3.0") scenarioA)) /\
  title (chartProps (fun _ => "3.0") scenarioA)
  = Some "Equity IRR (%) across Capital Structure" /\
  width (chartProps (fun _ => "3.0") scenarioA) = 600 /\
  height (chartProps (fun _ => "3.0") scenarioA) = 400.
Proof.
  apply (X12_tab_mounts_a_drawable_chart (fun _ => "3.0") (Some "m-1")
           (Some (mkResults (Some scenarioA)))).
  reflexivity.
Defined.

Lemma run_keeps_export_idle (events : list event) (s : state) :
  exportType s = None -> exportProgress s = 0 ->
  exportType (fold_left step events s) = None /\
  exportProgress (fold_left step events s) = 0.
Proof.
  revert s. induction events as [|e events IH]; intros s Ht Hp; simpl; [auto|].
  apply IH.
  - destruct e as [tab|[model_id|]|symbol type fails]; simpl; try assumption.
    unfold handleExport, refuseExport. destruct (modelId s) as [id|]; [|assumption].
    destruct (bool_decide (id = EmptyString)); [assumption|].
    destruct fails; [reflexivity|assumption].
  - destruct e as [tab|[model_id|]|symbol type fails]; simpl; try assumption.
    unfold handleExport, refuseExport. destruct (modelId s) as [id|]; [|assumption].
    destruct (bool_decide (id = EmptyString)); [assumption|].
    destruct fails; assumption.
Qed.

(** X13: whatever the user does on the Model page, the export type stays
    unset and the export progress stays 0; so the progress bar is never
    shown and neither export button is ever disabled. *)
Theorem X13_export_controls_stay_idle (events : list event) :
  exportType (run events) = None /\
  exportProgress (run events) = 0 /\
  progressShown (run events) = false /\
  exportDisabled Excel (run events) = false /\
  exportDisabled PPT (run events) = false.
Proof.
  destruct (run_keeps_export_idle events initialState eq_refl eq_refl) as [Ht Hp].
  fold (run events) in Ht, Hp.
  unfold progressShown, exportDisabled. rewrite Ht, Hp. repeat split.
Qed.

(** X14: an export request is sent only while a model id is set, and then to
    the export endpoint of that id; without one the handler alerts, sends
    nothing and goes back to the assumptions tab. *)
Theorem X14_export_needs_a_model (symbol : option string) (type : exportKind)
    (requestFails : bool) (s : state) :
  (JS_truthy (modelId s) = false ->
   handleExport symbol type requestFails s
   = (mkState "assumptions" (exportProgress s) (exportType s) (modelId s),
      [Alert "Please create a model first by submitting the assumptions form."])) /\
  (forall endpoint,
     ApiGet endpoint ∈ (handleExport symbol type requestFails s).2 ->
     exists id, modelId s = Some id /\ id <> EmptyString /\
       endpoint = String.append "/api/export/"
                    (String.append id
                       (match type with Excel => "/excel" | PPT => "/ppt" end))).
Proof.
  unfold handleExport, refuseExport, JS_truthy.
  destruct (modelId s) as [id|]; [|split; [reflexivity|]].
  - destruct (bool_decide_reflect (id = EmptyString)) as [->|Hne]; simpl.
    + split; [reflexivity|]. intros endpoint H.
      apply list_elem_of_singleton in H. discriminate.
    + split; [discriminate|]. intros endpoint H. exists id.
      split; [reflexivity|]. split; [assumption|].
      destruct requestFails, type; simpl in H;
        repeat (apply elem_of_cons in H as [H|H]; [injection H as ->; reflexivity|]);
        try (apply elem_of_cons in H as [H|H]; [discriminate|]);
        apply elem_of_nil in H as [].
  - intros endpoint H. simpl in H. apply list_elem_of_singleton in H. discriminate.
Qed.

(** X15: after [addRecentTicker] the ticker is first, no later entry has its
    symbol, at most ten entries are kept, and the entries after the first
    are old entries in their old order. *)
Theorem X15_added_ticker_is_first (t : TickerItem) (recentTickers : list TickerItem) :
  addRecentTicker t recentTickers !! 0%nat = Some t /\
  (length (addRecentTicker t recentTickers) <= 10)%nat /\
  (forall i item, i <> 0%nat -> addRecentTicker t recentTickers !! i = Some item ->
     ticker item <> ticker t) /\
  drop 1 (addRecentTicker t recentTickers) `sublist_of` recentTickers.
Proof.
  unfold addRecentTicker. split; [reflexivity|]. split.
  { rewrite length_take. lia. }
  split.
  - intros [|i] item Hi H; [contradiction|]. simpl in H.
    apply lookup_take_Some in H as [H _].
    apply list_elem_of_lookup_2, list_elem_of_filter in H as [H _]. exact H.
  - simpl. rewrite drop_0. etransitivity; [apply sublist_take|apply sublist_filter].
Qed.

Lemma addRecentTicker_NoDup (t : TickerItem) (l : list TickerItem) :
  NoDup (ticker <$> l) -> NoDup (ticker <$> addRecentTicker t l).
Proof.
  intros H. unfold addRecentTicker.
  set (kept := filter (fun item => ticker item <> ticker t) l).
  assert (S1 : (ticker <$> take 10 (t :: kept)) `sublist_of` (ticker <$> (t :: kept)))
    by apply fmap_sublist, sublist_take.
  assert (S2 : (ticker <$> kept) `sublist_of` (ticker <$> l))
    by apply fmap_sublist, sublist_filter.
  refine (sublist_NoDup _ _ _ S1). rewrite fmap_cons. apply NoDup_cons. split.
  - intros (item & E & Hin)%list_elem_of_fmap_1.
    apply list_elem_of_filter in Hin as [Hne _]. congruence.
  - exact (sublist_NoDup _ _ H S2).
Qed.

(** X16: starting from the empty store, any sequence of additions and
    clearings leaves at most ten entries, no two with the same symbol. *)
Theorem X16_recent_tickers_invariant (actions : list action) :
  NoDup (ticker <$> fold_left apply actions []) /\
  (length (fold_left apply actions []) <= 10)%nat.
Proof.
  assert (G : forall l, NoDup (ticker <$> l) -> (length l <= 10)%nat ->
            NoDup (ticker <$> fold_left apply actions l) /\
            (length (fold_left apply actions l) <= 10)%nat).
  { induction actions as [|a actions IH]; intros l Hn Hl; simpl; [auto|].
    apply IH; destruct a as [t|]; simpl.
    - apply addRecentTicker_NoDup, Hn.
    - constructor.
    - unfold addRecentTicker. rewrite length_take. lia.
    - lia. }
  apply G; [constructor|simpl; lia].
Qed.

(** X17: a symbol that is not in the list yet pushes every entry one place
    down and, when the list is full, drops the oldest one; a symbol that is
    already in a duplicate-free list is moved, and the length stays. *)
Theorem X17_new_ticker_evicts_oldest (t : TickerItem) (recentTickers : list TickerItem) :
  (Forall (fun item => ticker item <> ticker t) recentTickers ->
   addRecentTicker t recentTickers = t :: take 9 recentTickers) /\
  (NoDup (ticker <$> recentTickers) -> (length recentTickers <= 10)%nat ->
   ticker t ∈ ticker <$> recentTickers ->
   length (addRecentTicker t recentTickers) = length recentTickers).
Proof.
  unfold addRecentTicker. split.
  - intros H. simpl. f_equal. f_equal.
    induction H as [|item l Hne _ IH]; [reflexivity|].
    rewrite filter_cons_True by assumption. f_equal. exact IH.
  - intros Hn Hl Hin. rewrite length_take. cbn [length].
    assert (S (length (filter (fun item => ticker item <> ticker t) recentTickers))
            = length recentTickers) as E; [|lia].
    clear Hl. induction recentTickers as [|item l IH]; [apply elem_of_nil in Hin as []|].
    rewrite fmap_cons in Hn, Hin. apply NoDup_cons in Hn as [Hni Hn].
    destruct (decide (ticker item = ticker t)) as [E|E].
    + rewrite filter_cons_False by (intros H; apply H, E). simpl. f_equal.
      rewrite E in Hni. clear -Hni.
      induction l as [|x l IH]; [reflexivity|].
      rewrite fmap_cons in Hni. apply not_elem_of_cons in Hni as [Hx Hni].
      rewrite filter_cons_True by (intros H; apply Hx; symmetry; exact H).
      simpl. f_equal. apply IH, Hni.
    + rewrite filter_cons_True by assumption. simpl. f_equal. apply IH; [exact Hn|].
      apply elem_of_cons in Hin as [Hin|Hin]; [congruence|exact Hin].
Qed.

End PageExtras.
